(** * Load-test engine: write and read test runners, latency reporter

    A shallow embedding of [src/tests/writeTest.js], [src/tests/readTest.js],
    the percentile part of [src/utils/reporter.js] and the batch generator of
    [src/utils/dataGenerator.js].

    The runners are event-loop programs.  Each [processBatch] / [processQuery]
    call is an async function with one suspension point, the [await] on the
    executor, so it is modelled as two atomic steps on an explicit state: the
    step that runs a [setImmediate] callback up to the [await], and the step
    that resumes it when the backend call has settled.  Which backend call
    settles next, and how, is left to the environment (an event). *)

From Stdlib Require Import String.
From Stdlib Require Import ZArith List Lia Bool QArith Qround.
From Stdlib Require Import Permutation Sorted Mergesort Orders FinFun.
From Stdlib Require Import SpecFloat.
Import ListNotations.

Local Open Scope Z_scope.

(* ================================================================== *)
(** * JavaScript numbers *)
(* ================================================================== *)

(** The numbers the runners compute with are integers (counters, clock
    readings), quotients of two integers, and the special values a division
    by zero produces.  Finite values are kept as exact rationals in lowest
    terms: the rounding of IEEE doubles and the sign of zero are not
    modelled. *)
Module JsNum.

Inductive number : Type :=
| Fin (q : Q)
| PosInf
| NegInf
| NaN.

Definition of_Z (z : Z) : number := Fin (inject_Z z).

(** [a / b] on two integer-valued operands. *)
Definition div (a b : Z) : number :=
  if b =? 0 then
    if 0 <? a then PosInf else if a <? 0 then NegInf else NaN
  else Fin (Qred (inject_Z a / inject_Z b)).

(** [x * k] for an integer constant [k]. *)
Definition mul (x : number) (k : Z) : number :=
  match x with
  | Fin q => Fin (Qred (q * inject_Z k))
  | PosInf => if 0 <? k then PosInf else if k <? 0 then NegInf else NaN
  | NegInf => if 0 <? k then NegInf else if k <? 0 then PosInf else NaN
  | NaN => NaN
  end.

(** [Math.min(m, z)] where [z] is an integer. *)
Definition min (m : number) (z : Z) : number :=
  match m with
  | Fin q => if Qle_bool q (inject_Z z) then Fin q else of_Z z
  | PosInf => of_Z z
  | NegInf => NegInf
  | NaN => NaN
  end.

(** [m <= z], false for [NaN]. *)
Definition le_Z (m : number) (z : Z) : Prop :=
  match m with
  | Fin q => (q <= inject_Z z)%Q
  | NegInf => True
  | PosInf | NaN => False
  end.

(** [a <= b], false when either is [NaN]. *)
Definition le (a b : number) : Prop :=
  match a, b with
  | NaN, _ | _, NaN => False
  | NegInf, _ => True
  | _, PosInf => True
  | Fin p, Fin q => (p <= q)%Q
  | _, _ => False
  end.

(** [Math.ceil(a / b)] for integers [a] and [b <> 0]. *)
Definition ceil_div (a b : Z) : Z := - ((- a) / b).

End JsNum.

(* ================================================================== *)
(** * dataGenerator.js *)
(* ================================================================== *)

Module DataGenerator.
Section Generator.
(** A message record; its fields are random text and play no role in the
    runners. *)
Variable Message : Type.
(** The random source: the [i]-th record [generateMessage] produces. *)
Variable generateMessage : nat -> Message.

(** [for (let i = 0; i < count; i++) messages.push(generateMessage(..))] *)
Definition generateMessages (count : Z) : list Message :=
  map generateMessage (seq 0 (Z.to_nat count)).

Definition generateBatch (batchSize : Z) : list Message :=
  generateMessages batchSize.
End Generator.
End DataGenerator.

(* ================================================================== *)
(** * The lane dispatcher shared by both runners *)
(* ================================================================== *)

(** [runConcurrentWrites] and [runConcurrentReads] are the same dispatcher
    written twice.  [Lanes] is that dispatcher with the payload removed: the
    [setImmediate] queue, the calls awaiting the backend, and the three
    counters the completion test reads.  Both runners are shown below to
    project onto it step for step. *)
Module Lanes.

Record config : Type := mkConfig {
  total : Z;         (* totalBatches / totalQueries *)
  concurrency : Z
}.

(** A call [processBatch(index)].  [lane] is bookkeeping of the model: the
    iteration [i] of the start-up loop whose chain of [setImmediate]
    callbacks this call belongs to. *)
Record task : Type := mkTask {
  lane : Z;
  index : Z
}.

Record state : Type := mkState {
  immediates : list task;   (* callbacks queued by setImmediate, oldest first *)
  inflight : list task;     (* calls suspended at the await *)
  finished : list task;     (* calls that ran to their end (bookkeeping) *)
  completed : Z;            (* completedBatches / completedQueries *)
  errors : Z;               (* this.results.errors *)
  activeTasks : Z;
  settled : bool            (* resolve(...) has been called *)
}.

(** How a suspended call resumes: the executor returned a success record,
    a failure record, or threw. *)
Inductive resumption : Type :=
| Succeeded
| Failed
| Threw.

Inductive event : Type :=
| Immediate                           (* the event loop runs the oldest callback *)
| Settle (i : Z) (r : resumption).    (* the call for index [i] resumes *)

(** [for (let i = 0; i < Math.min(concurrency, total); i++)
       setImmediate(() => processBatch(i))] *)
Definition initial_tasks (cfg : config) : list task :=
  map (fun i => mkTask (Z.of_nat i) (Z.of_nat i))
      (seq 0 (Z.to_nat (Z.min (concurrency cfg) (total cfg)))).

(** The state when the promise executor returns; [errors0] is what
    [this.results.errors] holds at that moment. *)
Definition init (cfg : config) (errors0 : Z) : state :=
  mkState (initial_tasks cfg) [] [] 0 errors0 0 false.

Fixpoint take_task (i : Z) (l : list task) : option (task * list task) :=
  match l with
  | [] => None
  | t :: l' =>
      if index t =? i then Some (t, l')
      else match take_task i l' with
           | Some (u, r) => Some (u, t :: r)
           | None => None
           end
  end.

Definition step (cfg : config) (s : state) (e : event) : option state :=
  match e with
  | Immediate =>
      match immediates s with
      | [] => None
      | t :: q =>
          if total cfg <=? index t then
            Some (mkState q (inflight s) (finished s) (completed s)
                          (errors s) (activeTasks s) (settled s))
          else
            Some (mkState q (inflight s ++ [t]) (finished s) (completed s)
                          (errors s) (activeTasks s + 1) (settled s))
      end
  | Settle i r =>
      match take_task i (inflight s) with
      | None => None
      | Some (t, rest) =>
          let completed' :=
            match r with Succeeded => completed s + 1 | _ => completed s end in
          let errors' :=
            match r with Succeeded => errors s | _ => errors s + 1 end in
          let active' := activeTasks s - 1 in
          if (total cfg <=? completed' + errors') && (active' =? 0) then
            Some (mkState (immediates s) rest (finished s ++ [t])
                          completed' errors' active' true)
          else if index t + concurrency cfg <? total cfg then
            Some (mkState
                    (immediates s ++ [mkTask (lane t) (index t + concurrency cfg)])
                    rest (finished s ++ [t]) completed' errors' active'
                    (settled s))
          else
            Some (mkState (immediates s) rest (finished s ++ [t])
                          completed' errors' active' (settled s))
      end
  end.

Fixpoint run (cfg : config) (s : state) (es : list event) : option state :=
  match es with
  | [] => Some s
  | e :: es' =>
      match step cfg s e with
      | Some s' => run cfg s' es'
      | None => None
      end
  end.

(** No event is enabled: the event loop has nothing left to do. *)
Definition quiescent (s : state) : Prop :=
  immediates s = [] /\ inflight s = [].

(** The indices whose operation has been started. *)
Definition attempted (s : state) : list Z :=
  map index (finished s ++ inflight s).

(** The calls that are queued or suspended, and all calls ever made. *)
Definition live (s : state) : list task := immediates s ++ inflight s.
Definition tasks (s : state) : list task := live s ++ finished s.

(** Effective concurrency: the number of lanes the start-up loop opens. *)
Definition lanes (cfg : config) : Z := Z.min (concurrency cfg) (total cfg).

Definition count_completed (r : resumption) (c : Z) : Z :=
  match r with Succeeded => c + 1 | _ => c end.
Definition count_errors (r : resumption) (e : Z) : Z :=
  match r with Succeeded => e | _ => e + 1 end.

(** Steps taken so far: one to start a call, one to resume it. *)
Definition steps_taken (s : state) : Z :=
  Z.of_nat (List.length (inflight s)) + 2 * Z.of_nat (List.length (finished s)).


(** The transitions of [step], one constructor per path through the code. *)
Inductive Step (cfg : config) (s : state) : event -> state -> Prop :=
| Step_skip t q :
    immediates s = t :: q ->
    total cfg <= index t ->
    Step cfg s Immediate
         (mkState q (inflight s) (finished s) (completed s) (errors s)
                  (activeTasks s) (settled s))
| Step_start t q :
    immediates s = t :: q ->
    index t < total cfg ->
    Step cfg s Immediate
         (mkState q (inflight s ++ [t]) (finished s) (completed s) (errors s)
                  (activeTasks s + 1) (settled s))
| Step_done i r t rest :
    take_task i (inflight s) = Some (t, rest) ->
    total cfg <= count_completed r (completed s) + count_errors r (errors s) ->
    activeTasks s - 1 = 0 ->
    Step cfg s (Settle i r)
         (mkState (immediates s) rest (finished s ++ [t])
                  (count_completed r (completed s)) (count_errors r (errors s))
                  (activeTasks s - 1) true)
| Step_next i r t rest :
    take_task i (inflight s) = Some (t, rest) ->
    ~ (total cfg <= count_completed r (completed s) + count_errors r (errors s)
       /\ activeTasks s - 1 = 0) ->
    index t + concurrency cfg < total cfg ->
    Step cfg s (Settle i r)
         (mkState (immediates s ++ [mkTask (lane t) (index t + concurrency cfg)])
                  rest (finished s ++ [t])
                  (count_completed r (completed s)) (count_errors r (errors s))
                  (activeTasks s - 1) (settled s))
| Step_last i r t rest :
    take_task i (inflight s) = Some (t, rest) ->
    ~ (total cfg <= count_completed r (completed s) + count_errors r (errors s)
       /\ activeTasks s - 1 = 0) ->
    total cfg <= index t + concurrency cfg ->
    Step cfg s (Settle i r)
         (mkState (immediates s) rest (finished s ++ [t])
                  (count_completed r (completed s)) (count_errors r (errors s))
                  (activeTasks s - 1) (settled s)).

(** What holds of every state of every run, whatever [this.results.errors]
    was at the start. *)
Record wf (cfg : config) (s : state) : Prop := mkWf {
  wf_range : forall t, In t (tasks s) ->
    0 <= lane t < lanes cfg /\ 0 <= index t < total cfg /\
    index t mod lanes cfg = lane t;
  wf_lanes : NoDup (map lane (live s));
  wf_index : NoDup (map index (tasks s));
  wf_order : forall t f, In t (live s) -> In f (finished s) ->
    lane f = lane t -> index f < index t;
  wf_pred : forall t, In t (tasks s) ->
    index t = lane t \/
    In (mkTask (lane t) (index t - concurrency cfg)) (finished s);
  wf_active : activeTasks s = Z.of_nat (List.length (inflight s));
  wf_bound : Z.of_nat (List.length (live s)) <= lanes cfg
}.

(** What holds in addition when the run starts with
    [this.results.errors = errors0]. *)
Record counted (cfg : config) (errors0 : Z) (s : state) : Prop := mkCounted {
  ct_sum : completed s + errors s = errors0 + Z.of_nat (List.length (finished s));
  ct_completed : 0 <= completed s;
  ct_errors : errors0 <= errors s
}.

(** What holds in addition on a fresh instance ([errors0 = 0]). *)
Record fresh (cfg : config) (s : state) : Prop := mkFresh {
  fr_cover : forall j, 0 <= j < total cfg ->
    In j (map index (tasks s)) \/
    (concurrency cfg <= j /\ ~ In (j - concurrency cfg) (map index (finished s)));
  fr_settled : settled s = true <-> total cfg <= Z.of_nat (List.length (finished s))
}.

End Lanes.

(* ================================================================== *)
(** * What a backend call can do *)
(* ================================================================== *)

(** The value a rejected backend promise carries.  The database modules
    rethrow the driver's [Error] objects; JavaScript allows any value. *)
Inductive thrown : Type :=
| ErrorObject (message : string)   (* an Error: [error.message] is a string *)
| OtherValue                       (* any other non-null value: [error.message] is undefined *)
| Nullish.                         (* null or undefined: reading [error.message] throws *)

(** An exception raised by the runner's own code. *)
Inductive exn : Type :=
| TypeError.

(** [error.message]. *)
Definition message_of (e : thrown) : exn + option string :=
  match e with
  | ErrorObject m => inr (Some m)
  | OtherValue => inr None
  | Nullish => inl TypeError
  end.

(** The promise [runConcurrentWrites] / [runConcurrentReads] returns.  Its
    fulfilment value is the object [this.results] itself, not a copy. *)
Inductive promise : Type :=
| Pending
| Fulfilled
| Rejected (reason : thrown).

(** [resolve(this.results)]: only the first settlement counts. *)
Definition resolve (p : promise) : promise :=
  match p with
  | Pending => Fulfilled
  | _ => p
  end.

Definition is_settled (p : promise) : bool :=
  match p with
  | Pending => false
  | _ => true
  end.

Definition sum_Z (l : list Z) : Z := fold_left Z.add l 0.

(* ================================================================== *)
(** * writeTest.js *)
(* ================================================================== *)

Module WriteTest.

Module Cfg.
Record config : Type := mkConfig {
  totalRecords : Z;
  batchSize : Z;
  concurrency : Z;
  userCount : Z;
  useBatchInsert : bool
}.
End Cfg.
Definition config : Type := Cfg.config.

(** The object [executeBatch] returns. *)
Record BatchResult : Type := mkBatchResult {
  batchIndex : Z;
  recordCount : Z;
  latency : Z;
  success : bool;
  error : option string;   (* None: the key is absent or undefined *)
  timestamp : Z            (* the clock reading behind [new Date().toISOString()] *)
}.

(** [this.results]. *)
Record Results : Type := mkResults {
  totalRecords : Z;
  totalTime : Z;
  tps : JsNum.number;
  errors : Z;
  batches : list BatchResult;
  avgLatency : JsNum.number;
  minLatency : JsNum.number;
  maxLatency : Z
}.

(** The [this.results] the constructor installs. *)
Definition new_results : Results :=
  mkResults 0 0 (JsNum.of_Z 0) 0 [] (JsNum.of_Z 0) JsNum.PosInf 0.

(** [Math.ceil(totalRecords / batchSize)].  For [batchSize = 0] JavaScript
    yields [Infinity] or [NaN], which is no batch count; the value here is
    then 0, and every statement below assumes [1 <= totalBatches],
    [1 <= batchSize] or [batchSize <> 0], which leaves that case out. *)
Definition totalBatches (cfg : config) : Z :=
  JsNum.ceil_div (Cfg.totalRecords cfg) (Cfg.batchSize cfg).

(** [Math.min(batchSize, totalRecords - (batchIndex * batchSize))] *)
Definition actualBatchSize (cfg : config) (batchIndex : Z) : Z :=
  Z.min (Cfg.batchSize cfg) (Cfg.totalRecords cfg - batchIndex * Cfg.batchSize cfg).

Definition lanes_config (cfg : config) : Lanes.config :=
  Lanes.mkConfig (totalBatches cfg) (Cfg.concurrency cfg).

Section Runner.
Variable Message : Type.
(** The random source: record number [k] of the batch with a given index. *)
Variable generateMessage : Z -> nat -> Message.

(** ** executeBatch *)

(** How the awaited backend work ended. *)
Inductive outcome : Type :=
| Returned
| Raised (e : thrown).

(** The part of [executeBatch] after the backend work: the end of the
    [try] block or the [catch] block. *)
Definition executeBatch_resume (batchData : list Message) (batchIndex startTime : Z)
    (o : outcome) (endTime stamp : Z) : exn + BatchResult :=
  match o with
  | Returned =>
      inr (mkBatchResult batchIndex (Z.of_nat (length batchData))
                         (endTime - startTime) true None stamp)
  | Raised e =>
      match message_of e with
      | inl x => inl x
      | inr m =>
          inr (mkBatchResult batchIndex (Z.of_nat (length batchData))
                             (endTime - startTime) false m stamp)
      end
  end.

Section Backend.
(** The database, as a state with the two operations the test calls. *)
Variable DB : Type.
Variable insertBatch : list Message -> DB -> DB * outcome.
Variable insertMessage : Message -> DB -> DB * outcome.

(** [for (const record of batchData) await this.database.insertMessage(record)] *)
Fixpoint insertEach (batchData : list Message) (db : DB) : DB * outcome :=
  match batchData with
  | [] => (db, Returned)
  | record :: rest =>
      match insertMessage record db with
      | (db', Returned) => insertEach rest db'
      | (db', Raised e) => (db', Raised e)
      end
  end.

(** The awaited work of the [try] block. *)
Definition backend (cfg : config) (batchData : list Message) (db : DB)
    : DB * outcome :=
  if Cfg.useBatchInsert cfg then insertBatch batchData db
  else insertEach batchData db.

(** [startTime], [endTime] and [stamp] are the three clock readings. *)
Definition executeBatch (cfg : config) (batchData : list Message) (batchIndex : Z)
    (startTime endTime stamp : Z) (db : DB) : DB * (exn + BatchResult) :=
  let '(db', o) := backend cfg batchData db in
  (db', executeBatch_resume batchData batchIndex startTime o endTime stamp).
End Backend.

(** ** runConcurrentWrites *)

(** A [processBatch] call suspended at [await this.executeBatch(...)]. *)
Record call : Type := mkCall {
  task : Lanes.task;
  batchData : list Message;
  callStart : Z            (* executeBatch's startTime *)
}.

Record state : Type := mkState {
  startTime : Z;
  immediates : list Lanes.task;
  inflight : list call;
  finished : list Lanes.task;    (* bookkeeping, see [Lanes.state] *)
  completedBatches : Z;
  activeTasks : Z;
  results : list BatchResult;
  this_results : Results;
  returned : promise
}.

Inductive event : Type :=
| Immediate (now : Z)
| Settle (i : Z) (o : outcome) (endTime stamp now : Z).

(** The state when [runConcurrentWrites] returns its promise, on an
    instance whose [this.results] is [r0]. *)
Definition init (cfg : config) (r0 : Results) (now : Z) : state :=
  mkState now (Lanes.initial_tasks (lanes_config cfg)) [] [] 0 0 [] r0 Pending.

Fixpoint take_call (i : Z) (l : list call) : option (call * list call) :=
  match l with
  | [] => None
  | c :: l' =>
      if Lanes.index (task c) =? i then Some (c, l')
      else match take_call i l' with
           | Some (d, r) => Some (d, c :: r)
           | None => None
           end
  end.

(** Lines 93-104: push the record, count it, update the extremes. *)
Definition record_result (result : BatchResult) (r : Results) : Results :=
  mkResults
    (if success result then totalRecords r + recordCount result else totalRecords r)
    (totalTime r) (tps r)
    (if success result then errors r else errors r + 1)
    (batches r) (avgLatency r)
    (JsNum.min (minLatency r) (latency result))
    (Z.max (maxLatency r) (latency result)).

(** Line 114: the [catch] of [processBatch]. *)
Definition record_unexpected (r : Results) : Results :=
  mkResults (totalRecords r) (totalTime r) (tps r) (errors r + 1)
            (batches r) (avgLatency r) (minLatency r) (maxLatency r).

(** Lines 91-115: what the [try] / [catch] around the [await] does with
    the executor's answer, to [completedBatches], [results] and
    [this.results].  The progress line it prints changes no state and is
    left out. *)
Definition absorb (x : exn + BatchResult) (completedBatches : Z)
    (results : list BatchResult) (r : Results)
    : Z * list BatchResult * Results :=
  match x with
  | inr result =>
      (if success result then completedBatches + 1 else completedBatches,
       results ++ [result],
       record_result result r)
  | inl _ => (completedBatches, results, record_unexpected r)
  end.

(** Lines 121-130. *)
Definition finalize (startTime now : Z) (results : list BatchResult) (r : Results)
    : Results :=
  let totalTime' := now - startTime in
  let successfulBatches := filter success results in
  mkResults (totalRecords r) totalTime'
            (JsNum.mul (JsNum.div (totalRecords r) totalTime') 1000)
            (errors r) results
            (if 0 <? Z.of_nat (length successfulBatches)
             then JsNum.div (sum_Z (map latency successfulBatches))
                            (Z.of_nat (length successfulBatches))
             else avgLatency r)
            (minLatency r) (maxLatency r).

Definition step (cfg : config) (s : state) (e : event) : option state :=
  match e with
  | Immediate now =>
      match immediates s with
      | [] => None
      | t :: q =>
          if totalBatches cfg <=? Lanes.index t then
            Some (mkState (startTime s) q (inflight s) (finished s)
                          (completedBatches s) (activeTasks s) (results s)
                          (this_results s) (returned s))
          else
            let data :=
              DataGenerator.generateBatch Message
                (generateMessage (Lanes.index t))
                (actualBatchSize cfg (Lanes.index t)) in
            Some (mkState (startTime s) q (inflight s ++ [mkCall t data now])
                          (finished s) (completedBatches s) (activeTasks s + 1)
                          (results s) (this_results s) (returned s))
      end
  | Settle i o endTime stamp now =>
      match take_call i (inflight s) with
      | None => None
      | Some (c, rest) =>
          let t := task c in
          let '(completed', results', r') :=
            absorb (executeBatch_resume (batchData c) (Lanes.index t) (callStart c)
                                        o endTime stamp)
                   (completedBatches s) (results s) (this_results s) in
          let active' := activeTasks s - 1 in
          if (totalBatches cfg <=? completed' + errors r') && (active' =? 0) then
            Some (mkState (startTime s) (immediates s) rest (finished s ++ [t])
                          completed' active' results'
                          (finalize (startTime s) now results' r')
                          (resolve (returned s)))
          else if Lanes.index t + Cfg.concurrency cfg <? totalBatches cfg then
            Some (mkState (startTime s)
                          (immediates s ++
                             [Lanes.mkTask (Lanes.lane t)
                                           (Lanes.index t + Cfg.concurrency cfg)])
                          rest (finished s ++ [t]) completed' active' results' r'
                          (returned s))
          else
            Some (mkState (startTime s) (immediates s) rest (finished s ++ [t])
                          completed' active' results' r' (returned s))
      end
  end.

Fixpoint run (cfg : config) (s : state) (es : list event) : option state :=
  match es with
  | [] => Some s
  | e :: es' =>
      match step cfg s e with
      | Some s' => run cfg s' es'
      | None => None
      end
  end.

(** What the caller of [runConcurrentWrites] holds once the promise is
    fulfilled: the object [this.results], as it is now. *)
Definition result_of (s : state) : option Results :=
  match returned s with
  | Fulfilled => Some (this_results s)
  | _ => None
  end.

(** ** Projection onto the lane dispatcher *)

Definition lanes_resumption (o : outcome) : Lanes.resumption :=
  match o with
  | Returned => Lanes.Succeeded
  | Raised e =>
      match message_of e with
      | inl _ => Lanes.Threw
      | inr _ => Lanes.Failed
      end
  end.

Definition lanes_event (e : event) : Lanes.event :=
  match e with
  | Immediate _ => Lanes.Immediate
  | Settle i o _ _ _ => Lanes.Settle i (lanes_resumption o)
  end.

Definition lanes_state (s : state) : Lanes.state :=
  Lanes.mkState (immediates s) (map task (inflight s)) (finished s)
                (completedBatches s) (errors (this_results s)) (activeTasks s)
                (is_settled (returned s)).

Definition successCount (s : state) : Z :=
  Z.of_nat (length (filter success (results s))).

End Runner.

Arguments executeBatch_resume {Message}.
Arguments insertEach {Message DB}.
Arguments backend {Message DB}.
Arguments executeBatch {Message DB}.
Arguments mkCall {Message}.
Arguments task {Message}.
Arguments batchData {Message}.
Arguments callStart {Message}.
Arguments mkState {Message}.
Arguments startTime {Message}.
Arguments immediates {Message}.
Arguments inflight {Message}.
Arguments finished {Message}.
Arguments completedBatches {Message}.
Arguments activeTasks {Message}.
Arguments results {Message}.
Arguments this_results {Message}.
Arguments returned {Message}.
Arguments init {Message}.
Arguments take_call {Message}.
Arguments step {Message}.
Arguments run {Message}.
Arguments result_of {Message}.
Arguments lanes_state {Message}.
Arguments successCount {Message}.
Arguments absorb x completedBatches results r : simpl never.

(** [this.results] and [completedBatches] kept in step with the records
    pushed so far, on an instance whose [this.results] was [r0] when the
    run began. *)
Record accounted (r0 : Results) (completed : Z) (results : list BatchResult)
    (r : Results) : Prop := mkAccounted {
  ac_records :
    totalRecords r =
    totalRecords r0 + sum_Z (map recordCount (filter success results));
  ac_completed : completed = Z.of_nat (List.length (filter success results));
  ac_errors :
    errors r0 +
    Z.of_nat (List.length (filter (fun b => negb (success b)) results))
    <= errors r;
  ac_max_old : maxLatency r0 <= maxLatency r;
  ac_max : forall b, In b results -> latency b <= maxLatency r;
  ac_min_old : JsNum.le (minLatency r) (minLatency r0);
  ac_min : forall b, In b results -> JsNum.le_Z (minLatency r) (latency b)
}.

(** Where the records and the suspended calls come from. *)
Record shaped {Message : Type} (generateMessage : Z -> nat -> Message)
    (cfg : config) (s : state Message) : Prop := mkShaped {
  sh_calls : forall c, In c (inflight s) ->
    batchData c =
    DataGenerator.generateBatch Message (generateMessage (Lanes.index (task c)))
                                (actualBatchSize cfg (Lanes.index (task c)));
  sh_results : forall b, In b (results s) ->
    In (batchIndex b) (map Lanes.index (finished s)) /\
    recordCount b = Z.max 0 (actualBatchSize cfg (batchIndex b));
  sh_index : NoDup (map batchIndex (results s))
}.

(** The fields only the completion branch writes. *)
Record staged {Message : Type} (r0 : Results) (s : state Message) : Prop :=
  mkStaged {
  st_pending : returned s = Pending ->
    totalTime (this_results s) = totalTime r0 /\
    tps (this_results s) = tps r0 /\
    batches (this_results s) = batches r0 /\
    avgLatency (this_results s) = avgLatency r0;
  st_fulfilled : returned s = Fulfilled ->
    exists now pre,
      this_results s = finalize (startTime s) now (results s) pre /\
      avgLatency pre = avgLatency r0;
  st_rejected : forall e, returned s <> Rejected e
}.

(** Every backend call of the run failed. *)
Definition failing (e : event) : bool :=
  match e with
  | Immediate _ => true
  | Settle _ Returned _ _ _ => false
  | Settle _ (Raised _) _ _ _ => true
  end.

(** Every backend call of the run returned. *)
Definition succeeding (e : event) : bool :=
  match e with
  | Immediate _ => true
  | Settle _ Returned _ _ _ => true
  | Settle _ (Raised _) _ _ _ => false
  end.

(** No backend call of the run rejected with null or undefined, so every
    call that ran to its end pushed a record. *)
Definition recorded (e : event) : bool :=
  match e with
  | Settle _ (Raised Nullish) _ _ _ => false
  | _ => true
  end.
End WriteTest.

(* ================================================================== *)
(** * readTest.js *)
(* ================================================================== *)

Module ReadTest.

Module Cfg.
Record config : Type := mkConfig {
  totalQueries : Z;
  concurrency : Z;
  userCount : Z;
  readLimit : Z
}.
End Cfg.
Definition config : Type := Cfg.config.

(** The object [executeQuery] returns. *)
Record QueryResult : Type := mkQueryResult {
  queryIndex : Z;
  userId : string;
  recordCount : Z;
  latency : Z;
  success : bool;
  error : option string;
  timestamp : Z
}.

(** [this.results]. *)
Record Results : Type := mkResults {
  totalQueries : Z;
  totalRecordsRead : Z;
  totalTime : Z;
  qps : JsNum.number;
  errors : Z;
  queries : list QueryResult;
  avgLatency : JsNum.number;
  minLatency : JsNum.number;
  maxLatency : Z;
  avgRecordsPerQuery : JsNum.number
}.

Definition new_results : Results :=
  mkResults 0 0 0 (JsNum.of_Z 0) 0 [] (JsNum.of_Z 0) JsNum.PosInf 0 (JsNum.of_Z 0).

Definition lanes_config (cfg : config) : Lanes.config :=
  Lanes.mkConfig (Cfg.totalQueries cfg) (Cfg.concurrency cfg).

Section Runner.
Variable Message : Type.
(** The random source: the user id drawn for a given query index. *)
Variable getRandomUserId : Z -> string.

(** ** executeQuery *)

Inductive outcome : Type :=
| Returned (messages : list Message)
| Raised (e : thrown).

Definition executeQuery_resume (userId : string) (queryIndex startTime : Z)
    (o : outcome) (endTime stamp : Z) : exn + QueryResult :=
  match o with
  | Returned messages =>
      inr (mkQueryResult queryIndex userId (Z.of_nat (List.length messages))
                         (endTime - startTime) true None stamp)
  | Raised e =>
      match message_of e with
      | inl x => inl x
      | inr m =>
          inr (mkQueryResult queryIndex userId 0 (endTime - startTime)
                             false m stamp)
      end
  end.

Section Backend.
Variable DB : Type.
Variable getMessagesByUser : string -> Z -> DB -> DB * outcome.

Definition executeQuery (cfg : config) (userId : string) (queryIndex : Z)
    (startTime endTime stamp : Z) (db : DB) : DB * (exn + QueryResult) :=
  let '(db', o) := getMessagesByUser userId (Cfg.readLimit cfg) db in
  (db', executeQuery_resume userId queryIndex startTime o endTime stamp).
End Backend.

(** ** runConcurrentReads *)

(** A [processQuery] call suspended at [await this.executeQuery(...)]. *)
Record call : Type := mkCall {
  task : Lanes.task;
  callUser : string;
  callStart : Z
}.

Record state : Type := mkState {
  startTime : Z;
  immediates : list Lanes.task;
  inflight : list call;
  finished : list Lanes.task;
  completedQueries : Z;
  activeTasks : Z;
  results : list QueryResult;
  this_results : Results;
  returned : promise
}.

Inductive event : Type :=
| Immediate (now : Z)
| Settle (i : Z) (o : outcome) (endTime stamp now : Z).

Definition init (cfg : config) (r0 : Results) (now : Z) : state :=
  mkState now (Lanes.initial_tasks (lanes_config cfg)) [] [] 0 0 [] r0 Pending.

Fixpoint take_call (i : Z) (l : list call) : option (call * list call) :=
  match l with
  | [] => None
  | c :: l' =>
      if Lanes.index (task c) =? i then Some (c, l')
      else match take_call i l' with
           | Some (d, r) => Some (d, c :: r)
           | None => None
           end
  end.

(** Lines 87-98. *)
Definition record_result (result : QueryResult) (r : Results) : Results :=
  mkResults
    (totalQueries r)
    (if success result then totalRecordsRead r + recordCount result
     else totalRecordsRead r)
    (totalTime r) (qps r)
    (if success result then errors r else errors r + 1)
    (queries r) (avgLatency r)
    (JsNum.min (minLatency r) (latency result))
    (Z.max (maxLatency r) (latency result))
    (avgRecordsPerQuery r).

(** Line 108. *)
Definition record_unexpected (r : Results) : Results :=
  mkResults (totalQueries r) (totalRecordsRead r) (totalTime r) (qps r)
            (errors r + 1) (queries r) (avgLatency r) (minLatency r)
            (maxLatency r) (avgRecordsPerQuery r).

(** Lines 85-109: the [try] / [catch] around the [await]. *)
Definition absorb (x : exn + QueryResult) (completedQueries : Z)
    (results : list QueryResult) (r : Results)
    : Z * list QueryResult * Results :=
  match x with
  | inr result =>
      (if success result then completedQueries + 1 else completedQueries,
       results ++ [result],
       record_result result r)
  | inl _ => (completedQueries, results, record_unexpected r)
  end.

(** Lines 115-126. *)
Definition finalize (startTime now completedQueries : Z)
    (results : list QueryResult) (r : Results) : Results :=
  let totalTime' := now - startTime in
  let successfulQueries := filter success results in
  let n := Z.of_nat (List.length successfulQueries) in
  mkResults completedQueries (totalRecordsRead r) totalTime'
            (JsNum.mul (JsNum.div completedQueries totalTime') 1000)
            (errors r) results
            (if 0 <? n
             then JsNum.div (sum_Z (map latency successfulQueries)) n
             else avgLatency r)
            (minLatency r) (maxLatency r)
            (if 0 <? n then JsNum.div (totalRecordsRead r) n
             else avgRecordsPerQuery r).

Definition step (cfg : config) (s : state) (e : event) : option state :=
  match e with
  | Immediate now =>
      match immediates s with
      | [] => None
      | t :: q =>
          if Cfg.totalQueries cfg <=? Lanes.index t then
            Some (mkState (startTime s) q (inflight s) (finished s)
                          (completedQueries s) (activeTasks s) (results s)
                          (this_results s) (returned s))
          else
            Some (mkState (startTime s) q
                          (inflight s ++
                             [mkCall t (getRandomUserId (Lanes.index t)) now])
                          (finished s) (completedQueries s) (activeTasks s + 1)
                          (results s) (this_results s) (returned s))
      end
  | Settle i o endTime stamp now =>
      match take_call i (inflight s) with
      | None => None
      | Some (c, rest) =>
          let t := task c in
          let '(completed', results', r') :=
            absorb (executeQuery_resume (callUser c) (Lanes.index t) (callStart c)
                                        o endTime stamp)
                   (completedQueries s) (results s) (this_results s) in
          let active' := activeTasks s - 1 in
          if (Cfg.totalQueries cfg <=? completed' + errors r')
             && (active' =? 0) then
            Some (mkState (startTime s) (immediates s) rest (finished s ++ [t])
                          completed' active' results'
                          (finalize (startTime s) now completed' results' r')
                          (resolve (returned s)))
          else if Lanes.index t + Cfg.concurrency cfg <? Cfg.totalQueries cfg then
            Some (mkState (startTime s)
                          (immediates s ++
                             [Lanes.mkTask (Lanes.lane t)
                                           (Lanes.index t + Cfg.concurrency cfg)])
                          rest (finished s ++ [t]) completed' active' results' r'
                          (returned s))
          else
            Some (mkState (startTime s) (immediates s) rest (finished s ++ [t])
                          completed' active' results' r' (returned s))
      end
  end.

Fixpoint run (cfg : config) (s : state) (es : list event) : option state :=
  match es with
  | [] => Some s
  | e :: es' =>
      match step cfg s e with
      | Some s' => run cfg s' es'
      | None => None
      end
  end.

Definition result_of (s : state) : option Results :=
  match returned s with
  | Fulfilled => Some (this_results s)
  | _ => None
  end.

Definition lanes_resumption (o : outcome) : Lanes.resumption :=
  match o with
  | Returned _ => Lanes.Succeeded
  | Raised e =>
      match message_of e with
      | inl _ => Lanes.Threw
      | inr _ => Lanes.Failed
      end
  end.

Definition lanes_event (e : event) : Lanes.event :=
  match e with
  | Immediate _ => Lanes.Immediate
  | Settle i o _ _ _ => Lanes.Settle i (lanes_resumption o)
  end.

Definition lanes_state (s : state) : Lanes.state :=
  Lanes.mkState (immediates s) (map task (inflight s)) (finished s)
                (completedQueries s) (errors (this_results s)) (activeTasks s)
                (is_settled (returned s)).

End Runner.

Arguments Returned {Message}.
Arguments Raised {Message}.
Arguments executeQuery_resume {Message}.
Arguments executeQuery {Message DB}.
Arguments Immediate {Message}.
Arguments Settle {Message}.
Arguments step {Message}.
Arguments run {Message}.
Arguments lanes_resumption {Message}.
Arguments lanes_event {Message}.
Arguments absorb x completedQueries results r : simpl never.

(** [this.results] and [completedQueries] kept in step with the records
    pushed so far, on an instance whose [this.results] was [r0] when the
    run began. *)
Record accounted (r0 : Results) (completed : Z) (results : list QueryResult)
    (r : Results) : Prop := mkAccounted {
  ac_records :
    totalRecordsRead r =
    totalRecordsRead r0 + sum_Z (map recordCount (filter success results));
  ac_completed : completed = Z.of_nat (List.length (filter success results));
  ac_errors :
    errors r0 +
    Z.of_nat (List.length (filter (fun q => negb (success q)) results))
    <= errors r;
  ac_max_old : maxLatency r0 <= maxLatency r;
  ac_max : forall q, In q results -> latency q <= maxLatency r;
  ac_min_old : JsNum.le (minLatency r) (minLatency r0);
  ac_min : forall q, In q results -> JsNum.le_Z (minLatency r) (latency q)
}.

(** The fields only the completion branch writes. *)
Record staged (r0 : Results) (s : state) : Prop := mkStaged {
  st_pending : returned s = Pending ->
    totalQueries (this_results s) = totalQueries r0 /\
    totalTime (this_results s) = totalTime r0 /\
    qps (this_results s) = qps r0 /\
    queries (this_results s) = queries r0 /\
    avgLatency (this_results s) = avgLatency r0 /\
    avgRecordsPerQuery (this_results s) = avgRecordsPerQuery r0;
  st_fulfilled : returned s = Fulfilled ->
    exists now pre,
      this_results s =
      finalize (startTime s) now (completedQueries s) (results s) pre /\
      avgLatency pre = avgLatency r0;
  st_rejected : forall e, returned s <> Rejected e
}.

(** No backend call of the run rejected with null or undefined. *)
Definition recorded {Message : Type} (e : event Message) : bool :=
  match e with
  | Settle _ (Raised Nullish) _ _ _ => false
  | _ => true
  end.
End ReadTest.

(* ================================================================== *)
(** * reporter.js: generateLatencyAnalysis *)
(* ================================================================== *)

Module Reporter.

Module ZOrder <: TotalLeBool.
Definition t := Z.
Definition leb := Z.leb.
Theorem leb_total : forall a b, leb a b = true \/ leb b a = true.
Proof. intros a b; unfold leb; destruct (Z.leb_spec a b); auto; right; apply Z.leb_le; lia. Qed.
End ZOrder.

Module ZSort := Sort ZOrder.

(** The three values printed for one result set. *)
Record Percentiles : Type := mkPercentiles {
  p50 : option Z;
  p95 : option Z;
  p99 : option Z
}.

(** [Math.floor(latencies.length * p)] for [p = pct / 100].  The product
    is taken exactly; [Binary64.rank] below is the same computation on
    doubles. *)
Definition rank (n pct : Z) : Z := (n * pct) / 100.

(** [latencies[k]]; [None] is [undefined]. *)
Definition at_index (latencies : list Z) (k : Z) : option Z :=
  if k <? 0 then None else nth_error latencies (Z.to_nat k).

(** The body guarded by [latencies.length > 0]: sort in place, read the
    three ranks.  [None] when the guard fails and nothing is computed. *)
Definition percentilesOf (latencies : list Z) : option Percentiles :=
  if 0 <? Z.of_nat (List.length latencies) then
    let sorted := ZSort.sort latencies in
    let n := Z.of_nat (List.length sorted) in
    Some (mkPercentiles (at_index sorted (rank n 50))
                        (at_index sorted (rank n 95))
                        (at_index sorted (rank n 99)))
  else None.

(** [writeResults.batches.filter(b => b.success).map(b => b.latency)] *)
Definition writeLatencies (r : WriteTest.Results) : list Z :=
  map WriteTest.latency (filter WriteTest.success (WriteTest.batches r)).

(** [readResults.queries.filter(q => q.success).map(q => q.latency)] *)
Definition readLatencies (r : ReadTest.Results) : list Z :=
  map ReadTest.latency (filter ReadTest.success (ReadTest.queries r)).

Definition writePercentiles (r : WriteTest.Results) : option Percentiles :=
  percentilesOf (writeLatencies r).

Definition readPercentiles (r : ReadTest.Results) : option Percentiles :=
  percentilesOf (readLatencies r).

End Reporter.

(* ================================================================== *)
(** * The ranks on IEEE doubles *)
(* ================================================================== *)

(** [Reporter.rank] takes [n * p] exactly.  JavaScript multiplies two
    binary64 numbers, the length and the literal [0.5], [0.95] or [0.99],
    rounds, and then takes the floor.  This module computes that, with the
    Standard Library's specification of IEEE arithmetic, so that the two can
    be compared on concrete lengths. *)
Module Binary64.

Definition prec : Z := 53.
Definition emax : Z := 1024.

(** An integer below 2^53 as a double. *)
Definition of_integer (n : Z) : spec_float := binary_normalize prec emax n 0 false.

(** The doubles nearest to 0.5, 0.95 and 0.99. *)
Definition literal (pct : Z) : spec_float :=
  if pct =? 50 then S754_finite false 4503599627370496 (-53)
  else if pct =? 95 then S754_finite false 8556839292003942 (-53)
  else S754_finite false 8917127262193582 (-53).

(** [Math.floor] of a double; [None] for an infinity or [NaN]. *)
Definition floor (x : spec_float) : option Z :=
  match x with
  | S754_zero _ => Some 0
  | S754_finite s m e =>
      let v := if s then Z.neg m else Z.pos m in
      Some (if 0 <=? e then v * 2 ^ e else v / 2 ^ (- e))
  | _ => None
  end.

(** [Math.floor(latencies.length * p)] as JavaScript evaluates it. *)
Definition rank (n pct : Z) : option Z :=
  floor (SFmul prec emax (of_integer n) (literal pct)).

(** The three ranks of a list of length [n] are those [Reporter.rank]
    gives. *)
Definition agrees (n : Z) : bool :=
  match rank n 50, rank n 95, rank n 99 with
  | Some a, Some b, Some c =>
      (a =? Reporter.rank n 50) && (b =? Reporter.rank n 95)
      && (c =? Reporter.rank n 99)
  | _, _, _ => false
  end.

End Binary64.

(* ================================================================== *)
(** * The specification's own formulas *)
(* ================================================================== *)

(** Definitions written from the words of the specification, to be compared
    with what the code computes. *)
Module Spec.


(** "index = floor(n * p) clamped to [0, n-1]". *)
Definition clamped_index (n pct : Z) : Z :=
  Z.max 0 (Z.min (Reporter.rank n pct) (n - 1)).

(** "return the value at that index. If n == 0, all percentiles are 0." *)
Definition percentile (sorted : list Z) (pct : Z) : Z :=
  let n := Z.of_nat (List.length sorted) in
  if n =? 0 then 0
  else nth (Z.to_nat (clamped_index n pct)) sorted 0.

(** "take only latencies from successful records; sort ascending". *)
Definition percentiles (latencies : list Z) : Z * Z * Z :=
  let sorted := Reporter.ZSort.sort latencies in
  (percentile sorted 50, percentile sorted 95, percentile sorted 99).

End Spec.

(* ================================================================== *)
(** * Concrete runs *)
(* ================================================================== *)

(** Small configurations and event sequences on which the runners are
    evaluated. *)
Module Scenario.
Local Open Scope string_scope.

Definition generateMessage (batchIndex : Z) (k : nat) : unit := tt.
Definition getRandomUserId (queryIndex : Z) : string := "user_1".

(** Five records in batches of two: three batches, on two lanes.  The run
    starts at clock reading 100. *)
Definition write_config : WriteTest.config :=
  WriteTest.Cfg.mkConfig 5 2 2 1000 true.

(** Batch 1 succeeds, batch 0 fails, batch 2 succeeds. *)
Definition write_events : list WriteTest.event :=
  [ WriteTest.Immediate 100; WriteTest.Immediate 100;
    WriteTest.Settle 1 WriteTest.Returned 130 130 130;
    WriteTest.Settle 0 (WriteTest.Raised (ErrorObject "connection reset")) 140 140 140;
    WriteTest.Immediate 141;
    WriteTest.Settle 2 WriteTest.Returned 150 150 151 ].

Definition write_run (cfg : WriteTest.config) (r0 : WriteTest.Results) (now : Z)
    (es : list WriteTest.event) : WriteTest.state unit :=
  match WriteTest.run generateMessage cfg (WriteTest.init cfg r0 now) es with
  | Some s => s
  | None => WriteTest.init cfg r0 now
  end.

Definition write_final : WriteTest.state unit :=
  Eval vm_compute in write_run write_config WriteTest.new_results 100 write_events.

(** Two batches in flight. *)
Definition write_midway : WriteTest.state unit :=
  Eval vm_compute in
    write_run write_config WriteTest.new_results 100 (firstn 2 write_events).

(** A second run on the same instance, whose [this.results] is what the
    first run left: batch 1 succeeds, batch 0 fails. *)
Definition rerun_events : list WriteTest.event :=
  [ WriteTest.Immediate 200; WriteTest.Immediate 200;
    WriteTest.Settle 1 WriteTest.Returned 230 230 230;
    WriteTest.Settle 0 (WriteTest.Raised (ErrorObject "connection reset")) 240 240 240 ].

Definition rerun_final : WriteTest.state unit :=
  Eval vm_compute in
    write_run write_config (WriteTest.this_results write_final) 200 rerun_events.



(** "total=5, concurrency=2, backend operation always fails". *)
Definition failing_config : WriteTest.config :=
  WriteTest.Cfg.mkConfig 5 1 2 1000 true.

Definition failing_events : list WriteTest.event :=
  [ WriteTest.Immediate 100; WriteTest.Immediate 100;
    WriteTest.Settle 0 (WriteTest.Raised (ErrorObject "down")) 110 110 110;
    WriteTest.Settle 1 (WriteTest.Raised (ErrorObject "down")) 111 111 111;
    WriteTest.Immediate 112; WriteTest.Immediate 112;
    WriteTest.Settle 3 (WriteTest.Raised (ErrorObject "down")) 120 120 120;
    WriteTest.Settle 2 (WriteTest.Raised (ErrorObject "down")) 121 121 121;
    WriteTest.Immediate 122;
    WriteTest.Settle 4 (WriteTest.Raised (ErrorObject "down")) 130 130 130 ].

Definition failing_final : WriteTest.state unit :=
  Eval vm_compute in write_run failing_config WriteTest.new_results 100 failing_events.

(** No record to write. *)
Definition empty_write_config : WriteTest.config :=
  WriteTest.Cfg.mkConfig 0 20 10 1000 true.

(** Three queries on two lanes; a row is a [unit]. *)
Definition read_config : ReadTest.config :=
  ReadTest.Cfg.mkConfig 3 2 1000 100.

(** Query 0 returns ten rows, query 1 fails, query 2 returns ten rows. *)
Definition read_events : list (ReadTest.event unit) :=
  [ ReadTest.Immediate 0; ReadTest.Immediate 0;
    ReadTest.Settle 0 (ReadTest.Returned (repeat tt 10)) 400 400 400;
    ReadTest.Settle 1 (ReadTest.Raised (ErrorObject "timeout")) 500 500 500;
    ReadTest.Immediate 500;
    ReadTest.Settle 2 (ReadTest.Returned (repeat tt 10)) 1000 1000 1000 ].

Definition read_run (cfg : ReadTest.config) (r0 : ReadTest.Results) (now : Z)
    (es : list (ReadTest.event unit)) : ReadTest.state :=
  match ReadTest.run getRandomUserId cfg (ReadTest.init cfg r0 now) es with
  | Some s => s
  | None => ReadTest.init cfg r0 now
  end.

Definition read_final : ReadTest.state :=
  Eval vm_compute in read_run read_config ReadTest.new_results 0 read_events.

Definition reread_events : list (ReadTest.event unit) :=
  [ ReadTest.Immediate 2000; ReadTest.Immediate 2000;
    ReadTest.Settle 0 (ReadTest.Returned (repeat tt 10)) 2400 2400 2400;
    ReadTest.Settle 1 (ReadTest.Raised (ErrorObject "timeout")) 2500 2500 2500 ].

Definition reread_final : ReadTest.state :=
  Eval vm_compute in
    read_run read_config (ReadTest.this_results read_final) 2000 reread_events.

Definition read_midway : ReadTest.state :=
  Eval vm_compute in
    read_run read_config ReadTest.new_results 0 (firstn 2 read_events).

Definition empty_read_config : ReadTest.config :=
  ReadTest.Cfg.mkConfig 0 10 1000 100.

(** Backends over a database without state: one whose calls reject with
    an [Error], one whose batch insert rejects with [null]. *)
Definition rejecting_insertBatch (batch : list unit) (db : unit)
    : unit * WriteTest.outcome :=
  (db, WriteTest.Raised (ErrorObject "deadlock detected")).

Definition null_insertBatch (batch : list unit) (db : unit)
    : unit * WriteTest.outcome :=
  (db, WriteTest.Raised Nullish).

Definition insertMessage (record : unit) (db : unit) : unit * WriteTest.outcome :=
  (db, WriteTest.Returned).

Definition rejecting_getMessagesByUser (userId : string) (limit : Z) (db : unit)
    : unit * ReadTest.outcome unit :=
  (db, ReadTest.Raised (ErrorObject "deadlock detected")).

End Scenario.

(* ================================================================== *)
(** * Facts about the lane dispatcher *)
(* ================================================================== *)

Module LanesFacts.
Import Lanes.

Lemma take_task_spec i l t rest :
  take_task i l = Some (t, rest) -> index t = i /\ Permutation l (t :: rest).
Proof.
  revert t rest; induction l as [|u l IH]; simpl; intros t rest H; [discriminate|].
  destruct (Z.eqb_spec (index u) i) as [E|E].
  - inversion H; subst; split; auto.
  - destruct (take_task i l) as [[v r]|] eqn:Ht; [|discriminate].
    inversion H; subst. destruct (IH _ _ eq_refl) as [? P]. split; auto.
    rewrite perm_swap. now constructor.
Qed.

Lemma take_task_head t l :
  take_task (index t) (t :: l) = Some (t, l).
Proof. simpl. now rewrite Z.eqb_refl. Qed.

Lemma take_task_nil i : take_task i [] = None.
Proof. reflexivity. Qed.

Lemma step_Step cfg s e s' : step cfg s e = Some s' -> Step cfg s e s'.
Proof.
  destruct e as [|i r]; simpl.
  - destruct (immediates s) as [|t q] eqn:Hq; [discriminate|].
    destruct (Z.leb_spec (total cfg) (index t)) as [Hle|Hlt];
      intros Hs; inversion Hs; subst.
    + eapply Step_skip; eauto.
    + eapply Step_start; eauto.
  - destruct (take_task i (inflight s)) as [[t rest]|] eqn:Ht; [|discriminate].
    change (match r with Succeeded => completed s + 1 | _ => completed s end)
      with (count_completed r (completed s)).
    change (match r with Succeeded => errors s | _ => errors s + 1 end)
      with (count_errors r (errors s)).
    destruct (Z.leb_spec (total cfg)
                (count_completed r (completed s) + count_errors r (errors s)))
      as [Hd|Hd];
      destruct (Z.eqb_spec (activeTasks s - 1) 0) as [Ha|Ha]; simpl;
      try (intros Hs; inversion Hs; subst; eapply Step_done; eauto; fail);
      (destruct (Z.ltb_spec (index t + concurrency cfg) (total cfg)) as [Hn|Hn];
       intros Hs; inversion Hs; subst;
       [eapply Step_next | eapply Step_last]; eauto; lia).
Qed.

Lemma Step_step cfg s e s' : Step cfg s e s' -> step cfg s e = Some s'.
Proof.
  intros H; destruct H; simpl.
  - rewrite H. destruct (Z.leb_spec (total cfg) (index t)); [reflexivity|lia].
  - rewrite H. destruct (Z.leb_spec (total cfg) (index t)); [lia|reflexivity].
  - rewrite H.
    change (match r with Succeeded => completed s + 1 | _ => completed s end)
      with (count_completed r (completed s)).
    change (match r with Succeeded => errors s | _ => errors s + 1 end)
      with (count_errors r (errors s)).
    apply Z.leb_le in H0. rewrite H0. apply Z.eqb_eq in H1. rewrite H1. reflexivity.
  - rewrite H.
    change (match r with Succeeded => completed s + 1 | _ => completed s end)
      with (count_completed r (completed s)).
    change (match r with Succeeded => errors s | _ => errors s + 1 end)
      with (count_errors r (errors s)).
    destruct (Z.leb_spec (total cfg)
                (count_completed r (completed s) + count_errors r (errors s)));
      destruct (Z.eqb_spec (activeTasks s - 1) 0); simpl; try (exfalso; tauto);
      apply Z.ltb_lt in H1; rewrite H1; reflexivity.
  - rewrite H.
    change (match r with Succeeded => completed s + 1 | _ => completed s end)
      with (count_completed r (completed s)).
    change (match r with Succeeded => errors s | _ => errors s + 1 end)
      with (count_errors r (errors s)).
    destruct (Z.leb_spec (total cfg)
                (count_completed r (completed s) + count_errors r (errors s)));
      destruct (Z.eqb_spec (activeTasks s - 1) 0); simpl; try (exfalso; tauto);
      (destruct (Z.ltb_spec (index t + concurrency cfg) (total cfg)); [lia|reflexivity]).
Qed.

Lemma NoDup_map_eq {A B} (f : A -> B) l a b :
  NoDup (map f l) -> In a l -> In b l -> f a = f b -> a = b.
Proof.
  induction l as [|x l IH]; simpl; [tauto|].
  intros N Ha Hb E. apply NoDup_cons_iff in N as [Nx N].
  destruct Ha as [->|Ha], Hb as [->|Hb]; auto.
  - exfalso; apply Nx; rewrite E; now apply in_map.
  - exfalso; apply Nx; rewrite <- E; now apply in_map.
Qed.

Lemma NoDup_of_nat n : NoDup (map Z.of_nat (seq 0 n)).
Proof.
  apply Finite.Injective_map_NoDup; [intros a b; apply Nat2Z.inj | apply seq_NoDup].
Qed.

Lemma in_initial_tasks cfg t :
  In t (initial_tasks cfg) <-> lane t = index t /\ 0 <= index t < lanes cfg.
Proof.
  unfold initial_tasks, lanes. rewrite in_map_iff. split.
  - intros (i & <- & Hi). apply in_seq in Hi. simpl. lia.
  - intros [E R]. exists (Z.to_nat (index t)). split.
    + destruct t as [l i]; simpl in *; subst. now rewrite Z2Nat.id by lia.
    + apply in_seq. lia.
Qed.

Lemma initial_lanes cfg :
  map lane (initial_tasks cfg) = map Z.of_nat (seq 0 (Z.to_nat (lanes cfg))).
Proof. unfold initial_tasks. rewrite map_map. reflexivity. Qed.

Lemma initial_indices cfg :
  map index (initial_tasks cfg) = map Z.of_nat (seq 0 (Z.to_nat (lanes cfg))).
Proof. unfold initial_tasks. rewrite map_map. reflexivity. Qed.

Section Enabled.
Variable cfg : config.

Lemma counted_init errors0 : counted cfg errors0 (init cfg errors0).
Proof. constructor; simpl; lia. Qed.

Lemma counted_step errors0 s e s' :
  counted cfg errors0 s -> Step cfg s e s' -> counted cfg errors0 s'.
Proof.
  intros [Hs Hc He] St.
  destruct St; constructor; simpl; auto;
    rewrite ?length_app; cbn [List.length]; destruct r; simpl; lia.
Qed.

Lemma run_counted errors0 es : forall s s',
  counted cfg errors0 s -> run cfg s es = Some s' -> counted cfg errors0 s'.
Proof.
  induction es as [|e es IH]; simpl; intros s s' W H.
  - now inversion H; subst.
  - destruct (step cfg s e) as [s1|] eqn:E; [|discriminate].
    apply step_Step in E. eauto using counted_step.
Qed.

(** ** Progress and quiescence *)

Lemma take_task_in t l :
  In t l -> exists u rest, take_task (index t) l = Some (u, rest).
Proof.
  induction l as [|x l IH]; simpl; [tauto|]. intros [->|H].
  - rewrite Z.eqb_refl. eauto.
  - destruct (index x =? index t); eauto.
    destruct (IH H) as (u & rest & ->). eauto.
Qed.

Lemma step_immediate s :
  immediates s <> [] -> exists s', step cfg s Immediate = Some s'.
Proof.
  intros H. simpl. destruct (immediates s) as [|t q]; [congruence|].
  destruct (total cfg <=? index t); eauto.
Qed.

(** Any suspended call may resume next, in any of the three ways. *)
Lemma step_settle s t r :
  In t (inflight s) -> exists s', step cfg s (Settle (index t) r) = Some s'.
Proof.
  intros H. simpl. destruct (take_task_in _ _ H) as (u & rest & ->).
  destruct (_ && _); eauto. destruct (_ <? _); eauto.
Qed.

Lemma progress s :
  ~ quiescent s -> exists e s', step cfg s e = Some s'.
Proof.
  intros H. destruct (immediates s) as [|t q] eqn:Eq.
  - destruct (inflight s) as [|t l] eqn:Ei.
    + exfalso. apply H. now split.
    + destruct (step_settle s t Succeeded) as [s' Hs']; [rewrite Ei; now left|].
      eauto.
  - destruct (step_immediate s) as [s' Hs']; [congruence|]. eauto.
Qed.

Lemma quiescent_stuck s e : quiescent s -> step cfg s e = None.
Proof.
  intros [Hq Hi]. destruct e; simpl; [now rewrite Hq | now rewrite Hi].
Qed.

End Enabled.

Section Invariants.
Variable cfg : config.
Hypothesis total_pos : 1 <= total cfg.
Hypothesis concurrency_pos : 1 <= concurrency cfg.

Local Set Default Proof Using "All".

Lemma lanes_pos : 1 <= lanes cfg.
Proof. unfold lanes; lia. Qed.

Lemma wf_init errors0 : wf cfg (init cfg errors0).
Proof.
  pose proof lanes_pos as LP.
  constructor; unfold tasks, live; simpl; rewrite ?app_nil_r.
  - intros t Ht. apply in_initial_tasks in Ht as [E R].
    rewrite E. repeat split; try (unfold lanes in *; lia).
    apply Z.mod_small; lia.
  - rewrite initial_lanes. apply NoDup_of_nat.
  - rewrite initial_indices. apply NoDup_of_nat.
  - intros t f _ [].
  - intros t Ht. apply in_initial_tasks in Ht as [E R]. now left.
  - reflexivity.
  - unfold initial_tasks. rewrite length_map, length_seq. fold (lanes cfg). lia.
Qed.

Lemma live_start s t q :
  immediates s = t :: q ->
  Permutation (live s) (q ++ inflight s ++ [t]).
Proof.
  intros E. unfold live. rewrite E. simpl.
  rewrite app_assoc. apply Permutation_cons_append.
Qed.

Lemma live_settle s i t rest :
  take_task i (inflight s) = Some (t, rest) ->
  Permutation (live s) (t :: immediates s ++ rest).
Proof.
  intros H. apply take_task_spec in H as [_ P]. unfold live.
  rewrite P. symmetry. apply Permutation_middle.
Qed.

Lemma wf_step s e s' : wf cfg s -> Step cfg s e s' -> wf cfg s'.
Proof.
  intros W St. pose proof lanes_pos as LP.
  destruct St as [t q Hq Hle | t q Hq Hlt | i r t rest Ht Hd Ha
                 | i r t rest Ht Hd Hn | i r t rest Ht Hd Hn].
  - (* the callback returns at once: its index is never out of range *)
    exfalso. destruct (wf_range _ _ W t) as (_ & R & _); [|lia].
    unfold tasks, live. rewrite Hq. simpl. auto.
  - (* the callback starts its operation *)
    pose proof (live_start _ _ _ Hq) as P.
    assert (PT : Permutation (tasks s) ((q ++ inflight s ++ [t]) ++ finished s))
      by (unfold tasks; now rewrite P).
    constructor; unfold tasks, live; simpl.
    + intros u Hu. apply (wf_range _ _ W). now rewrite PT.
    + rewrite <- P. apply (wf_lanes _ _ W).
    + rewrite <- PT. apply (wf_index _ _ W).
    + intros u f Hu Hf. apply (wf_order _ _ W); auto. now rewrite P.
    + intros u Hu. apply (wf_pred _ _ W). now rewrite PT.
    + rewrite length_app, (wf_active _ _ W). cbn [List.length]. lia.
    + rewrite <- (Permutation_length P). apply (wf_bound _ _ W).
  - (* last record of the run *)
    pose proof (live_settle _ _ _ _ Ht) as P.
    assert (PT : Permutation (tasks s) ((immediates s ++ rest) ++ finished s ++ [t])).
    { unfold tasks. rewrite P. simpl. rewrite Permutation_middle.
      apply Permutation_app_head. apply Permutation_cons_append. }
    pose proof (wf_lanes _ _ W) as NL. rewrite P in NL. simpl in NL.
    apply NoDup_cons_iff in NL as [NLt NL].
    constructor; unfold tasks, live; simpl.
    + intros u Hu. apply (wf_range _ _ W). now rewrite PT.
    + exact NL.
    + rewrite <- PT. apply (wf_index _ _ W).
    + intros u f Hu Hf E. apply in_app_or in Hf as [Hf|[<-|[]]].
      * apply (wf_order _ _ W); auto. rewrite P. now right.
      * exfalso. apply NLt. rewrite E. now apply in_map.
    + intros u Hu. rewrite <- PT in Hu.
      destruct (wf_pred _ _ W u Hu) as [|Hp]; auto.
      right. apply in_or_app. now left.
    + apply take_task_spec in Ht as [_ Pi]. apply Permutation_length in Pi.
      rewrite (wf_active _ _ W), Pi. cbn [List.length]. lia.
    + pose proof (wf_bound _ _ W) as B. rewrite (Permutation_length P) in B.
      cbn [List.length] in B. lia.
  - (* the lane goes on to its next index *)
    pose proof (live_settle _ _ _ _ Ht) as P.
    set (n := mkTask (lane t) (index t + concurrency cfg)).
    assert (Hin : In t (live s)) by (rewrite P; now left).
    assert (HinT : In t (tasks s)) by (unfold tasks; apply in_or_app; now left).
    destruct (wf_range _ _ W t HinT) as (Rl & Ri & Rm).
    assert (EK : lanes cfg = concurrency cfg) by (unfold lanes; lia).
    assert (PL : Permutation ((immediates s ++ [n]) ++ rest)
                             (n :: immediates s ++ rest)).
    { rewrite <- app_assoc. simpl. symmetry. apply Permutation_middle. }
    assert (PT : Permutation (((immediates s ++ [n]) ++ rest) ++ finished s ++ [t])
                             (n :: tasks s)).
    { rewrite PL. simpl. constructor. unfold tasks. rewrite P. simpl.
      rewrite Permutation_middle. apply Permutation_app_head.
      symmetry. apply Permutation_cons_append. }
    pose proof (wf_lanes _ _ W) as NL. rewrite P in NL. simpl in NL.
    pose proof NL as NL'. apply NoDup_cons_iff in NL' as [NLt NL'].
    constructor; unfold tasks, live; simpl.
    + intros u Hu. rewrite PT in Hu. destruct Hu as [<-|Hu].
      * simpl. repeat split; try lia.
        rewrite EK in *. rewrite <- Rm.
        replace (index t + concurrency cfg) with (index t + 1 * concurrency cfg) by lia.
        apply Z.mod_add. lia.
      * now apply (wf_range _ _ W).
    + rewrite PL. simpl. exact NL.
    + rewrite PT. simpl. constructor; [|apply (wf_index _ _ W)].
      intros Hc. apply in_map_iff in Hc as (u & Eu & Hu).
      assert (Elane : lane u = lane t).
      { destruct (wf_range _ _ W u Hu) as (_ & _ & Um).
        rewrite <- Um, Eu, <- Rm, EK.
        replace (index t + concurrency cfg) with (index t + 1 * concurrency cfg) by lia.
        apply Z.mod_add. lia. }
      unfold tasks in Hu. apply in_app_or in Hu as [Hu|Hu].
      * assert (u = t) by (apply (NoDup_map_eq lane (live s)); auto; apply (wf_lanes _ _ W)).
        subst u. lia.
      * pose proof (wf_order _ _ W t u Hin Hu Elane). lia.
    + intros u f Hu Hf E. rewrite PL in Hu.
      apply in_app_or in Hf as [Hf|[<-|[]]]; destruct Hu as [<-|Hu]; simpl in *.
      * pose proof (wf_order _ _ W t f Hin Hf E). lia.
      * apply (wf_order _ _ W); auto. rewrite P. now right.
      * lia.
      * exfalso. apply NLt. rewrite E. now apply in_map.
    + intros u Hu. rewrite PT in Hu. destruct Hu as [<-|Hu].
      * right. simpl. apply in_or_app. right. left.
        destruct t; simpl. f_equal. lia.
      * destruct (wf_pred _ _ W u Hu) as [|Hp]; auto.
        right. apply in_or_app. now left.
    + apply take_task_spec in Ht as [_ Pi]. apply Permutation_length in Pi.
      rewrite (wf_active _ _ W), Pi. cbn [List.length]. lia.
    + rewrite (Permutation_length PL). cbn [List.length].
      pose proof (wf_bound _ _ W) as B. rewrite (Permutation_length P) in B.
      cbn [List.length] in B. lia.
  - (* the lane has no index left *)
    pose proof (live_settle _ _ _ _ Ht) as P.
    assert (PT : Permutation (tasks s) ((immediates s ++ rest) ++ finished s ++ [t])).
    { unfold tasks. rewrite P. simpl. rewrite Permutation_middle.
      apply Permutation_app_head. apply Permutation_cons_append. }
    pose proof (wf_lanes _ _ W) as NL. rewrite P in NL. simpl in NL.
    apply NoDup_cons_iff in NL as [NLt NL].
    constructor; unfold tasks, live; simpl.
    + intros u Hu. apply (wf_range _ _ W). now rewrite PT.
    + exact NL.
    + rewrite <- PT. apply (wf_index _ _ W).
    + intros u f Hu Hf E. apply in_app_or in Hf as [Hf|[<-|[]]].
      * apply (wf_order _ _ W); auto. rewrite P. now right.
      * exfalso. apply NLt. rewrite E. now apply in_map.
    + intros u Hu. rewrite <- PT in Hu.
      destruct (wf_pred _ _ W u Hu) as [|Hp]; auto.
      right. apply in_or_app. now left.
    + apply take_task_spec in Ht as [_ Pi]. apply Permutation_length in Pi.
      rewrite (wf_active _ _ W), Pi. cbn [List.length]. lia.
    + pose proof (wf_bound _ _ W) as B. rewrite (Permutation_length P) in B.
      cbn [List.length] in B. lia.
Qed.

(** A duplicate-free list of indices below [total] that is at least
    [total] long holds every index. *)
Lemma full_cover (l : list Z) :
  NoDup l -> (forall x, In x l -> 0 <= x < total cfg) ->
  total cfg <= Z.of_nat (List.length l) ->
  forall j, 0 <= j < total cfg -> In j l.
Proof.
  intros N R L j Hj.
  apply (NoDup_length_incl N (l' := map Z.of_nat (seq 0 (Z.to_nat (total cfg))))).
  - rewrite length_map, length_seq. lia.
  - intros x Hx. apply R in Hx. apply in_map_iff.
    exists (Z.to_nat x). split; [lia | apply in_seq; lia].
  - apply in_map_iff. exists (Z.to_nat j). split; [lia | apply in_seq; lia].
Qed.

Lemma short_cover (l : list Z) :
  NoDup l -> (forall x, In x l -> 0 <= x < total cfg) ->
  Z.of_nat (List.length l) <= total cfg.
Proof.
  intros N R.
  assert (H : (List.length l <= List.length (map Z.of_nat (seq 0 (Z.to_nat (total cfg)))))%nat).
  { apply NoDup_incl_length; auto. intros x Hx. apply R in Hx. apply in_map_iff.
    exists (Z.to_nat x). split; [lia | apply in_seq; lia]. }
  rewrite length_map, length_seq in H. lia.
Qed.

Lemma wf_finished_index s :
  wf cfg s -> NoDup (map index (finished s)) /\
              forall x, In x (map index (finished s)) -> 0 <= x < total cfg.
Proof.
  intros W. split.
  - pose proof (wf_index _ _ W) as N. unfold tasks in N.
    rewrite map_app in N. now apply NoDup_app_remove_l in N.
  - intros x Hx. apply in_map_iff in Hx as (t & <- & Ht).
    apply (wf_range _ _ W). unfold tasks. apply in_or_app. now right.
Qed.

(** Once [total] calls have finished, nothing is queued or suspended. *)
Lemma finished_full s :
  wf cfg s -> total cfg <= Z.of_nat (List.length (finished s)) -> live s = [].
Proof.
  intros W L. destruct (live s) as [|u l] eqn:E; [reflexivity|exfalso].
  destruct (wf_finished_index s W) as [N R].
  assert (Hu : In u (tasks s)) by (unfold tasks; rewrite E; now left).
  destruct (wf_range _ _ W u Hu) as (_ & Ru & _).
  rewrite <- length_map with (f := index) in L.
  pose proof (full_cover _ N R L _ Ru) as Hin.
  pose proof (wf_index _ _ W) as ND. unfold tasks in ND.
  rewrite E, map_app in ND. simpl in ND.
  apply NoDup_cons_iff in ND as [ND _]. apply ND.
  apply in_or_app. now right.
Qed.

Lemma finished_short s :
  wf cfg s ->
  Z.of_nat (List.length (inflight s)) + Z.of_nat (List.length (finished s))
  <= total cfg.
Proof.
  intros W.
  assert (N : NoDup (map index (inflight s ++ finished s))).
  { pose proof (wf_index _ _ W) as N. unfold tasks, live in N.
    rewrite <- app_assoc, map_app in N. now apply NoDup_app_remove_l in N. }
  assert (R : forall x, In x (map index (inflight s ++ finished s)) ->
                        0 <= x < total cfg).
  { intros x Hx. apply in_map_iff in Hx as (t & <- & Ht).
    apply (wf_range _ _ W). unfold tasks, live. rewrite <- app_assoc.
    apply in_or_app. now right. }
  pose proof (short_cover _ N R) as H.
  rewrite length_map, length_app in H. lia.
Qed.

Lemma fresh_init : fresh cfg (init cfg 0).
Proof.
  constructor; unfold tasks, live; simpl; rewrite ?app_nil_r.
  - intros j Hj. destruct (Z_lt_le_dec j (concurrency cfg)) as [Hlt|Hge].
    + left. apply in_map_iff. exists (mkTask j j). split; auto.
      apply in_initial_tasks. simpl. unfold lanes. lia.
    + right. split; auto.
  - split; [discriminate | lia].
Qed.

Lemma fresh_step s e s' :
  wf cfg s -> counted cfg 0 s -> fresh cfg s -> Step cfg s e s' -> fresh cfg s'.
Proof.
  intros W Ct Fr St.
  pose proof (wf_step _ _ _ W St) as W'.
  pose proof (counted_step _ _ _ _ _ Ct St) as Ct'.
  destruct Fr as [Cov Stl].
  destruct St as [t q Hq Hle | t q Hq Hlt | i r t rest Ht Hd Ha
                 | i r t rest Ht Hd Hn | i r t rest Ht Hd Hn].
  - exfalso. destruct (wf_range _ _ W t) as (_ & R & _); [|lia].
    unfold tasks, live. rewrite Hq. simpl. auto.
  - pose proof (live_start _ _ _ Hq) as P.
    constructor; simpl; auto.
    intros j Hj. destruct (Cov j Hj) as [Hin|Hn]; [left|now right].
    unfold tasks in *. unfold live at 1. simpl. now rewrite <- P.
  - (* the run resolves *)
    assert (L : total cfg <= Z.of_nat (List.length (finished s ++ [t]))).
    { pose proof (ct_sum _ _ _ Ct') as E. simpl in E. lia. }
    constructor; simpl.
    + intros j Hj. left. unfold tasks. simpl. rewrite map_app.
      apply in_or_app. right.
      destruct (wf_finished_index _ W') as [N R]. simpl in N, R.
      apply full_cover; auto. now rewrite length_map.
    + split; auto.
  - (* the lane goes on *)
    pose proof (live_settle _ _ _ _ Ht) as P.
    set (n := mkTask (lane t) (index t + concurrency cfg)) in *.
    assert (Hlive : live s <> []) by (intros E; rewrite E in P; now apply Permutation_nil in P).
    constructor; simpl.
    + intros j Hj. destruct (Cov j Hj) as [Hin|[Hc Hnot]].
      * left. apply in_map_iff in Hin as (u & <- & Hu). apply in_map.
        unfold tasks in *. unfold live at 1. simpl.
        apply in_app_or in Hu as [Hu|Hu].
        -- rewrite P in Hu. destruct Hu as [<-|Hu].
           ++ apply in_or_app. right. apply in_or_app. right. now left.
           ++ apply in_or_app. left. apply in_app_or in Hu as [Hu|Hu];
                apply in_or_app; [left; apply in_or_app; now left | now right].
        -- apply in_or_app. right. apply in_or_app. now left.
      * destruct (Z.eq_dec (j - concurrency cfg) (index t)) as [E|E].
        -- left. apply in_map_iff. exists n. split; [simpl; lia|].
           unfold tasks, live. simpl. apply in_or_app. left.
           apply in_or_app. left. apply in_or_app. right. now left.
        -- right. split; auto. rewrite map_app, in_app_iff. simpl.
           intros [Hf|[Ef|[]]]; [tauto | lia].
    + split.
      * intros S1. apply Stl in S1. exfalso. apply Hlive. now apply finished_full.
      * intros L. exfalso.
        pose proof (finished_full _ W' L) as E. unfold live in E. simpl in E.
        destruct (immediates s); discriminate.
  - (* the lane has nothing left *)
    pose proof (live_settle _ _ _ _ Ht) as P.
    assert (Hlive : live s <> []) by (intros E; rewrite E in P; now apply Permutation_nil in P).
    constructor; simpl.
    + intros j Hj. destruct (Cov j Hj) as [Hin|[Hc Hnot]].
      * left. apply in_map_iff in Hin as (u & <- & Hu). apply in_map.
        unfold tasks in *. unfold live at 1. simpl.
        apply in_app_or in Hu as [Hu|Hu].
        -- rewrite P in Hu. destruct Hu as [<-|Hu].
           ++ apply in_or_app. right. apply in_or_app. right. now left.
           ++ apply in_or_app. now left.
        -- apply in_or_app. right. apply in_or_app. now left.
      * assert (Hin : In t (tasks s)).
        { unfold tasks. apply in_or_app. left. rewrite P. now left. }
        right. split; auto. rewrite map_app, in_app_iff. simpl.
        intros [Hf|[E|[]]]; [tauto|]. lia.
    + split.
      * intros S1. apply Stl in S1. exfalso. apply Hlive. now apply finished_full.
      * intros L. exfalso.
        pose proof (finished_full _ W' L) as E. unfold live in E. simpl in E.
        apply app_eq_nil in E as [_ ->].
        pose proof (wf_active _ _ W') as A. simpl in A.
        pose proof (ct_sum _ _ _ Ct') as Sm. simpl in Sm.
        apply Hd. split; lia.
Qed.

Lemma steps_step s e s' :
  wf cfg s -> Step cfg s e s' -> steps_taken s' = steps_taken s + 1.
Proof.
  intros W St.
  destruct St as [t q Hq Hle | t q Hq Hlt | i r t rest Ht Hd Ha
                 | i r t rest Ht Hd Hn | i r t rest Ht Hd Hn];
    unfold steps_taken; simpl inflight; simpl finished;
    rewrite ?length_app; cbn [List.length].
  - exfalso. destruct (wf_range _ _ W t) as (_ & R & _); [|lia].
    unfold tasks, live. rewrite Hq. simpl. auto.
  - lia.
  - apply take_task_spec in Ht as [_ Pi]; apply Permutation_length in Pi;
      rewrite Pi; cbn [List.length]; lia.
  - apply take_task_spec in Ht as [_ Pi]; apply Permutation_length in Pi;
      rewrite Pi; cbn [List.length]; lia.
  - apply take_task_spec in Ht as [_ Pi]; apply Permutation_length in Pi;
      rewrite Pi; cbn [List.length]; lia.
Qed.

(** The invariants along a run. *)
Lemma run_wf es : forall s s',
  wf cfg s -> run cfg s es = Some s' -> wf cfg s'.
Proof.
  induction es as [|e es IH]; simpl; intros s s' W H.
  - now inversion H; subst.
  - destruct (step cfg s e) as [s1|] eqn:E; [|discriminate].
    apply step_Step in E. eauto using wf_step.
Qed.

Lemma run_fresh es : forall s s',
  wf cfg s -> counted cfg 0 s -> fresh cfg s ->
  run cfg s es = Some s' -> fresh cfg s'.
Proof.
  induction es as [|e es IH]; simpl; intros s s' W C F H.
  - now inversion H; subst.
  - destruct (step cfg s e) as [s1|] eqn:E; [|discriminate].
    apply step_Step in E.
    apply (IH s1); eauto using wf_step, counted_step, fresh_step.
Qed.

Lemma run_steps es : forall s s',
  wf cfg s -> run cfg s es = Some s' ->
  steps_taken s' = steps_taken s + Z.of_nat (List.length es).
Proof.
  induction es as [|e es IH]; simpl; intros s s' W H.
  - inversion H; subst. lia.
  - destruct (step cfg s e) as [s1|] eqn:E; [|discriminate].
    apply step_Step in E.
    rewrite (IH s1 s') by eauto using wf_step.
    rewrite (steps_step _ _ _ W E). lia.
Qed.

(** When nothing is queued or suspended on a fresh run, every index has
    been finished. *)
Lemma quiescent_cover s :
  wf cfg s -> fresh cfg s -> quiescent s ->
  forall j, 0 <= j < total cfg -> In j (map index (finished s)).
Proof.
  intros W F [Hq Hi].
  assert (E : tasks s = finished s) by (unfold tasks, live; now rewrite Hq, Hi).
  assert (H : forall k : nat, forall j, 0 <= j < total cfg ->
                j < Z.of_nat k -> In j (map index (finished s))).
  { induction k as [|k IH]; intros j Hj Hk; [lia|].
    destruct (fr_cover _ _ F j Hj) as [Hin|[Hc Hn]].
    - now rewrite E in Hin.
    - exfalso. apply Hn. apply IH; lia. }
  intros j Hj. apply (H (Z.to_nat (j + 1))); lia.
Qed.

Lemma quiescent_length s :
  wf cfg s -> fresh cfg s -> quiescent s ->
  Z.of_nat (List.length (finished s)) = total cfg.
Proof.
  intros W F Q.
  pose proof (finished_short _ W) as Hs. destruct Q as [Hq Hi].
  rewrite Hi in Hs. cbn [List.length] in Hs.
  assert (Hl : (List.length (map Z.of_nat (seq 0 (Z.to_nat (total cfg))))
                <= List.length (map index (finished s)))%nat).
  { apply NoDup_incl_length; [apply NoDup_of_nat|].
    intros x Hx. apply in_map_iff in Hx as (k & <- & Hk). apply in_seq in Hk.
    apply quiescent_cover; auto; [now split | lia]. }
  rewrite !length_map, length_seq in Hl. lia.
Qed.

Lemma settled_quiescent s :
  wf cfg s -> fresh cfg s -> (settled s = true <-> quiescent s).
Proof.
  intros W F. split.
  - intros H. apply (fr_settled _ _ F) in H.
    pose proof (finished_full _ W H) as E. unfold live in E.
    apply app_eq_nil in E. exact E.
  - intros Q. apply (fr_settled _ _ F).
    rewrite (quiescent_length _ W F Q). lia.
Qed.

Lemma settled_indices s :
  wf cfg s -> fresh cfg s -> settled s = true ->
  Permutation (map index (finished s))
              (map Z.of_nat (seq 0 (Z.to_nat (total cfg)))).
Proof.
  intros W F H. apply settled_quiescent in H; auto.
  destruct (wf_finished_index _ W) as [N R].
  apply NoDup_Permutation; auto using NoDup_of_nat.
  intros x. split.
  - intros Hx. apply R in Hx. apply in_map_iff.
    exists (Z.to_nat x). split; [lia | apply in_seq; lia].
  - intros Hx. apply in_map_iff in Hx as (k & <- & Hk). apply in_seq in Hk.
    apply quiescent_cover; auto. lia.
Qed.


End Invariants.
End LanesFacts.

(* ================================================================== *)
(** * The write runner projects onto the dispatcher *)
(* ================================================================== *)

Module WriteFacts.
Import WriteTest.

Section Facts.
Variable Message : Type.
Variable generateMessage : Z -> nat -> Message.
Variable cfg : config.

Lemma take_call_task i (l : list (call Message)) :
  Lanes.take_task i (map task l) =
  option_map (fun p => (task (fst p), map task (snd p))) (take_call i l).
Proof.
  induction l as [|c l IH]; simpl; [reflexivity|].
  destruct (Lanes.index (task c) =? i); [reflexivity|].
  rewrite IH. destruct (take_call i l) as [[d r]|]; reflexivity.
Qed.

Lemma lanes_init r0 now :
  lanes_state (init cfg r0 now : state Message) =
  Lanes.init (lanes_config cfg) (errors r0).
Proof. reflexivity. Qed.

Lemma step_lanes (s : state Message) e :
  option_map lanes_state (step generateMessage cfg s e) =
  Lanes.step (lanes_config cfg) (lanes_state s) (lanes_event e).
Proof.
  destruct e as [now | i o endTime stamp now]; simpl.
  - destruct (immediates s) as [|t q]; [reflexivity|].
    destruct (totalBatches cfg <=? Lanes.index t); simpl; unfold lanes_state; simpl;
      [reflexivity|]. now rewrite map_app.
  - rewrite take_call_task.
    destruct (take_call i (inflight s)) as [[c rest]|]; [|reflexivity].
    simpl.
    destruct o as [|[m| |]]; simpl;
      repeat match goal with
             | |- context [if ?b then _ else _] => destruct b
             end; simpl; unfold lanes_state; simpl;
      try reflexivity; destruct (returned s); reflexivity.
Qed.

Lemma run_lanes es : forall s : state Message,
  option_map lanes_state (run generateMessage cfg s es) =
  Lanes.run (lanes_config cfg) (lanes_state s) (map lanes_event es).
Proof.
  induction es as [|e es IH]; intros s; simpl; [reflexivity|].
  rewrite <- step_lanes. destruct (step generateMessage cfg s e) as [s1|]; simpl; auto.
Qed.
End Facts.
End WriteFacts.

(* ================================================================== *)
(** * Facts about numbers, sums and the write runner *)
(* ================================================================== *)

Module JsNumFacts.
Import JsNum.

Lemma le_refl m : m <> NaN -> le m m.
Proof. destruct m; simpl; auto; try congruence. intros _. apply Qle_refl. Qed.

Lemma le_not_nan a b : le a b -> a <> NaN /\ b <> NaN.
Proof. destruct a, b; simpl; intros H; split; try congruence; tauto. Qed.

Lemma min_le_old m m0 z : le m m0 -> le (min m z) m0.
Proof.
  destruct m as [q| | |], m0 as [q0| | |]; simpl; auto; try tauto.
  intros H. destruct (Qle_bool q (inject_Z z)) eqn:E; simpl; auto.
  assert (~ (q <= inject_Z z)%Q) as N by (rewrite <- Qle_bool_iff; congruence).
  apply Qnot_le_lt in N. eapply Qle_trans; [apply Qlt_le_weak; eauto|auto].
  - destruct (Qle_bool q (inject_Z z)); simpl; auto.
Qed.

Lemma min_le_new m z : m <> NaN -> le_Z (min m z) z.
Proof.
  destruct m as [q| | |]; simpl; try congruence; intros _; auto.
  - destruct (Qle_bool q (inject_Z z)) eqn:E; simpl.
    + now apply Qle_bool_iff.
    + apply Qle_refl.
  - apply Qle_refl.
Qed.

Lemma min_le_keep m z y : le_Z m y -> le_Z (min m z) y.
Proof.
  destruct m as [q| | |]; simpl; try tauto.
  intros H. destruct (Qle_bool q (inject_Z z)) eqn:E; simpl; auto.
  assert (~ (q <= inject_Z z)%Q) as N by (rewrite <- Qle_bool_iff; congruence).
  apply Qnot_le_lt in N. eapply Qle_trans; [apply Qlt_le_weak; eauto|auto].
Qed.

Lemma ceil_div_spec a b :
  0 < b -> (ceil_div a b - 1) * b < a <= ceil_div a b * b.
Proof.
  intros Hb. unfold ceil_div.
  pose proof (Z.div_mod (- a) b ltac:(lia)) as E.
  pose proof (Z.mod_pos_bound (- a) b Hb) as R. nia.
Qed.
End JsNumFacts.

Lemma sum_Z_from (l : list Z) (a : Z) : fold_left Z.add l a = a + sum_Z l.
Proof.
  unfold sum_Z. revert a; induction l as [|x l IH]; intros a; simpl; [lia|].
  rewrite IH, (IH x). lia.
Qed.

Lemma sum_Z_app (l1 l2 : list Z) : sum_Z (l1 ++ l2) = sum_Z l1 + sum_Z l2.
Proof. unfold sum_Z at 1. rewrite fold_left_app, sum_Z_from. fold (sum_Z l1). lia. Qed.

Lemma sum_Z_cons (x : Z) (l : list Z) : sum_Z (x :: l) = x + sum_Z l.
Proof. unfold sum_Z at 1. simpl. apply sum_Z_from. Qed.

Lemma sum_Z_nil : sum_Z [] = 0.
Proof. reflexivity. Qed.

Lemma NoDup_app_disjoint {A} (l1 l2 : list A) x :
  NoDup (l1 ++ l2) -> In x l1 -> In x l2 -> False.
Proof.
  induction l1 as [|a l1 IH]; simpl; [tauto|].
  intros N H1 H2. apply NoDup_cons_iff in N as [Na N].
  destruct H1 as [->|H1]; auto. apply Na. apply in_or_app. now right.
Qed.

Module WriteInv.
Import WriteTest.
Import WriteFacts JsNumFacts.

Section Facts.
Variable Message : Type.
Variable generateMessage : Z -> nat -> Message.
Variable cfg : config.

Lemma take_call_spec i (l : list (call Message)) c rest :
  take_call i l = Some (c, rest) ->
  Lanes.index (task c) = i /\ Permutation l (c :: rest).
Proof.
  revert c rest; induction l as [|u l IH]; simpl; intros c rest H; [discriminate|].
  destruct (Z.eqb_spec (Lanes.index (task u)) i) as [E|E].
  - inversion H; subst; split; auto.
  - destruct (take_call i l) as [[v r]|] eqn:Ht; [|discriminate].
    inversion H; subst. destruct (IH _ _ eq_refl) as [? P]. split; auto.
    rewrite perm_swap. now constructor.
Qed.

Lemma run_invariant (P : state Message -> Prop) :
  (forall s e s', P s -> step generateMessage cfg s e = Some s' -> P s') ->
  forall es s s', P s -> run generateMessage cfg s es = Some s' -> P s'.
Proof.
  intros Hstep. induction es as [|e es IH]; simpl; intros s s' Hs H.
  - now inversion H; subst.
  - destruct (step generateMessage cfg s e) as [s1|] eqn:E; [|discriminate].
    eauto.
Qed.

Lemma step_immediate_inv (s : state Message) now s' :
  step generateMessage cfg s (Immediate now) = Some s' ->
  exists t q,
    immediates s = t :: q /\
    startTime s' = startTime s /\ finished s' = finished s /\
    completedBatches s' = completedBatches s /\ results s' = results s /\
    this_results s' = this_results s /\ returned s' = returned s /\
    (inflight s' = inflight s \/
     inflight s' = inflight s ++
       [mkCall t (DataGenerator.generateBatch Message
                    (generateMessage (Lanes.index t))
                    (actualBatchSize cfg (Lanes.index t))) now]).
Proof.
  simpl. destruct (immediates s) as [|t q]; [discriminate|].
  destruct (totalBatches cfg <=? Lanes.index t); intros H; inversion H; subst;
    simpl; exists t, q; repeat split; auto.
Qed.

Lemma step_settle_inv (s : state Message) i o endTime stamp now s' :
  step generateMessage cfg s (Settle i o endTime stamp now) = Some s' ->
  exists c rest completed' results' r',
    take_call i (inflight s) = Some (c, rest) /\
    absorb (executeBatch_resume (batchData c) (Lanes.index (task c))
                                (callStart c) o endTime stamp)
           (completedBatches s) (results s) (this_results s)
    = (completed', results', r') /\
    startTime s' = startTime s /\ inflight s' = rest /\
    finished s' = finished s ++ [task c] /\
    completedBatches s' = completed' /\ results s' = results' /\
    ((returned s' = resolve (returned s) /\
      this_results s' = finalize (startTime s) now results' r') \/
     (returned s' = returned s /\ this_results s' = r')).
Proof.
  simpl. destruct (take_call i (inflight s)) as [[c rest]|]; [|discriminate].
  destruct (absorb _ _ _ _) as [[completed' results'] r'] eqn:E.
  intros H. exists c, rest, completed', results', r'.
  destruct (_ && _); [|destruct (_ <? _)]; inversion H; subst; simpl;
    repeat split; auto.
Qed.

(** ** Accounting *)

Lemma accounted_init r0 :
  minLatency r0 <> JsNum.NaN -> accounted r0 0 [] r0.
Proof.
  intros H. constructor; simpl; try lia; try tauto.
  - rewrite sum_Z_nil. lia.
  - now apply le_refl.
Qed.

Lemma accounted_absorb r0 x completed results r completed' results' r' :
  accounted r0 completed results r ->
  absorb x completed results r = (completed', results', r') ->
  accounted r0 completed' results' r'.
Proof.
  intros [Hr Hc He Hmo Hm Hno Hn] E. unfold absorb in E.
  destruct x as [ex|b]; inversion E; subst; clear E.
  - constructor; simpl; auto; lia.
  - pose proof (proj1 (le_not_nan _ _ Hno)) as NN.
    constructor; simpl; rewrite ?filter_app; simpl.
    + destruct (success b); simpl; rewrite ?app_nil_r; auto.
      rewrite map_app, sum_Z_app. simpl. rewrite sum_Z_cons, sum_Z_nil. lia.
    + destruct (success b); simpl; rewrite ?app_nil_r; auto.
      rewrite length_app. cbn [List.length]. lia.
    + destruct (success b); simpl; rewrite ?app_nil_r; try lia.
      rewrite length_app. cbn [List.length]. lia.
    + lia.
    + intros b' Hb'. apply in_app_or in Hb' as [Hb'|[<-|[]]]; [|lia].
      apply Hm in Hb'. lia.
    + now apply min_le_old.
    + intros b' Hb'. apply in_app_or in Hb' as [Hb'|[<-|[]]].
      * now apply min_le_keep, Hn.
      * now apply min_le_new.
Qed.

Lemma accounted_finalize r0 completed results r st now :
  accounted r0 completed results r ->
  accounted r0 completed results (finalize st now results r).
Proof. intros [Hr Hc He Hmo Hm Hno Hn]. constructor; simpl; auto. Qed.

Lemma accounted_step r0 (s : state Message) e s' :
  accounted r0 (completedBatches s) (results s) (this_results s) ->
  step generateMessage cfg s e = Some s' ->
  accounted r0 (completedBatches s') (results s') (this_results s').
Proof.
  intros A H. destruct e as [now|i o endTime stamp now].
  - apply step_immediate_inv in H
      as (t & q & _ & _ & _ & -> & -> & -> & _). exact A.
  - apply step_settle_inv in H
      as (c & rest & c' & rs' & r' & _ & Ab & _ & _ & _ & -> & -> & Hr).
    pose proof (accounted_absorb _ _ _ _ _ _ _ _ A Ab) as A'.
    destruct Hr as [[_ ->]|[_ ->]]; auto using accounted_finalize.
Qed.

Lemma accounted_run r0 now0 es (s : state Message) :
  minLatency r0 <> JsNum.NaN ->
  run generateMessage cfg (init cfg r0 now0) es = Some s ->
  accounted r0 (completedBatches s) (results s) (this_results s).
Proof.
  intros NN H.
  apply (run_invariant
           (fun s => accounted r0 (completedBatches s) (results s) (this_results s)))
    with (3 := H).
  - intros; eauto using accounted_step.
  - simpl. now apply accounted_init.
Qed.

(** ** The dispatcher's invariants, read on the runner's state *)

Hypothesis total_pos : 1 <= totalBatches cfg.
Hypothesis concurrency_pos : 1 <= Cfg.concurrency cfg.

Lemma step_project (s : state Message) e s' :
  step generateMessage cfg s e = Some s' ->
  Lanes.Step (lanes_config cfg) (lanes_state s) (lanes_event e) (lanes_state s').
Proof.
  intros H. apply LanesFacts.step_Step.
  rewrite <- (step_lanes _ generateMessage), H. reflexivity.
Qed.

Lemma run_project es (s s' : state Message) :
  run generateMessage cfg s es = Some s' ->
  Lanes.run (lanes_config cfg) (lanes_state s) (map lanes_event es)
  = Some (lanes_state s').
Proof. intros H. rewrite <- (run_lanes _ generateMessage), H. reflexivity. Qed.

Lemma wf_run r0 now0 es (s : state Message) :
  run generateMessage cfg (init cfg r0 now0) es = Some s ->
  Lanes.wf (lanes_config cfg) (lanes_state s).
Proof.
  intros H. apply run_project in H.
  eapply LanesFacts.run_wf; eauto. apply LanesFacts.wf_init; auto.
Qed.

Lemma counted_run r0 now0 es (s : state Message) :
  run generateMessage cfg (init cfg r0 now0) es = Some s ->
  Lanes.counted (lanes_config cfg) (errors r0) (lanes_state s).
Proof.
  intros H. apply run_project in H.
  eapply LanesFacts.run_counted; eauto. apply LanesFacts.counted_init.
Qed.

Lemma fresh_run r0 now0 es (s : state Message) :
  errors r0 = 0 ->
  run generateMessage cfg (init cfg r0 now0) es = Some s ->
  Lanes.fresh (lanes_config cfg) (lanes_state s).
Proof.
  intros E H. apply run_project in H. rewrite lanes_init, E in H.
  eapply LanesFacts.run_fresh; eauto.
  - apply LanesFacts.wf_init; auto.
  - apply LanesFacts.counted_init.
  - apply LanesFacts.fresh_init; auto.
Qed.

Lemma steps_run r0 now0 es (s : state Message) :
  run generateMessage cfg (init cfg r0 now0) es = Some s ->
  Lanes.steps_taken (lanes_state s) = Z.of_nat (List.length es).
Proof.
  intros H. apply run_project in H.
  eapply LanesFacts.run_steps in H; eauto; [|apply LanesFacts.wf_init; auto].
  rewrite H, length_map. reflexivity.
Qed.

(** ** Shape of calls and records *)

Lemma generateBatch_length (g : nat -> Message) n :
  Z.of_nat (List.length (DataGenerator.generateBatch Message g n)) = Z.max 0 n.
Proof.
  unfold DataGenerator.generateBatch, DataGenerator.generateMessages.
  rewrite length_map, length_seq. lia.
Qed.

Lemma resume_record (data : list Message) i st o endTime stamp b :
  executeBatch_resume data i st o endTime stamp = inr b ->
  batchIndex b = i /\ recordCount b = Z.of_nat (List.length data) /\
  latency b = endTime - st /\ timestamp b = stamp /\
  success b = match o with Returned => true | Raised _ => false end.
Proof.
  destruct o as [|[m| |]]; simpl; intros H; inversion H; subst; simpl; auto.
Qed.

Lemma shaped_step (s : state Message) e s' :
  Lanes.wf (lanes_config cfg) (lanes_state s) ->
  shaped generateMessage cfg s ->
  step generateMessage cfg s e = Some s' ->
  shaped generateMessage cfg s'.
Proof.
  intros W [Hc Hr Hn] H. destruct e as [now|i o endTime stamp now].
  - apply step_immediate_inv in H
      as (t & q & _ & _ & Ef & _ & Er & _ & _ & Hi).
    constructor; rewrite ?Er, ?Ef; auto.
    intros c Hin. destruct Hi as [Ei|Ei]; rewrite Ei in Hin; auto.
    apply in_app_or in Hin as [Hin|[<-|[]]]; auto.
  - apply step_settle_inv in H
      as (c & rest & c' & rs' & r' & Ht & Ab & _ & Ei & Ef & _ & Er & _).
    apply take_call_spec in Ht as [Ec P].
    assert (Hcin : In c (inflight s)) by (rewrite P; now left).
    unfold absorb in Ab.
    destruct (executeBatch_resume _ _ _ _ _ _) as [ex|b] eqn:Eb;
      injection Ab as Ec' Ers' Er'; subst c' rs' r'.
    + constructor; rewrite ?Er, ?Ef, ?Ei; auto.
      * intros d Hd. apply Hc. rewrite P. now right.
      * intros b Hb. destruct (Hr b Hb) as [Hin Hrc]. split; auto.
        rewrite map_app. apply in_or_app. now left.
    + apply resume_record in Eb as (Ebi & Erc & _).
      constructor; rewrite ?Er, ?Ef, ?Ei.
      * intros d Hd. apply Hc. rewrite P. now right.
      * intros b' Hb'. rewrite map_app.
        apply in_app_or in Hb' as [Hb'|[<-|[]]].
        -- destruct (Hr b' Hb') as [Hin Hrc]. split; auto.
           apply in_or_app. now left.
        -- split.
           ++ apply in_or_app. right. simpl. left. congruence.
           ++ rewrite Erc, (Hc c Hcin), generateBatch_length. now rewrite Ebi.
      * rewrite map_app. simpl.
        apply NoDup_app; [exact Hn | repeat constructor; simpl; tauto |].
        intros x Hx [<-|[]].
        apply in_map_iff in Hx as (b' & Eb' & Hb').
        destruct (Hr b' Hb') as [Hin _]. rewrite Eb', Ebi in Hin.
        pose proof (Lanes.wf_index _ _ W) as ND.
        unfold Lanes.tasks, Lanes.live in ND. simpl in ND.
        rewrite <- app_assoc, map_app in ND.
        apply NoDup_app_remove_l in ND. rewrite map_app in ND.
        apply (NoDup_app_disjoint _ _ (Lanes.index (task c)) ND).
        ++ apply in_map_iff. exists (task c). split; auto. now apply in_map.
        ++ exact Hin.
Qed.

Lemma shaped_run r0 now0 es (s : state Message) :
  run generateMessage cfg (init cfg r0 now0) es = Some s ->
  shaped generateMessage cfg s.
Proof.
  intros H.
  assert (P : Lanes.wf (lanes_config cfg) (lanes_state s) /\
              shaped generateMessage cfg s).
  { apply (run_invariant
             (fun s => Lanes.wf (lanes_config cfg) (lanes_state s) /\
                       shaped generateMessage cfg s)) with (3 := H).
    - intros s1 e s2 [W Sh] St. split.
      + eapply LanesFacts.wf_step; eauto using step_project.
      + eapply shaped_step; eauto.
    - split.
      + rewrite lanes_init. apply LanesFacts.wf_init; auto.
      + constructor; simpl; try tauto. constructor. }
  apply P.
Qed.

(** ** The fields written on completion *)

Lemma absorb_keeps x c rs r c' rs' r' :
  absorb x c rs r = (c', rs', r') ->
  totalTime r' = totalTime r /\ tps r' = tps r /\
  batches r' = batches r /\ avgLatency r' = avgLatency r.
Proof.
  unfold absorb. destruct x as [ex|b]; intros H; inversion H; subst; simpl; auto.
Qed.

(** On a fresh instance a fulfilled run takes no further step. *)
Lemma fulfilled_stuck (s : state Message) e :
  Lanes.wf (lanes_config cfg) (lanes_state s) ->
  Lanes.fresh (lanes_config cfg) (lanes_state s) ->
  returned s <> Pending ->
  step generateMessage cfg s e = None.
Proof.
  intros W F H.
  assert (Q : Lanes.quiescent (lanes_state s)).
  { apply LanesFacts.settled_quiescent with (cfg := lanes_config cfg); auto.
    simpl. destruct (returned s); simpl; congruence. }
  pose proof (LanesFacts.quiescent_stuck (lanes_config cfg) _ (lanes_event e) Q) as N.
  rewrite <- (step_lanes _ generateMessage) in N.
  destruct (step generateMessage cfg s e); [discriminate|reflexivity].
Qed.

Lemma staged_step r0 (s : state Message) e s' :
  Lanes.wf (lanes_config cfg) (lanes_state s) ->
  Lanes.fresh (lanes_config cfg) (lanes_state s) ->
  staged r0 s ->
  step generateMessage cfg s e = Some s' ->
  staged r0 s'.
Proof.
  intros W F [Hp Hf Hr] H.
  destruct (returned s) eqn:Er.
  2,3: rewrite fulfilled_stuck in H; auto; try discriminate; congruence.
  specialize (Hp eq_refl). destruct Hp as (Ht & Htps & Hb & Ha).
  destruct e as [now|i o endTime stamp now].
  - apply step_immediate_inv in H
      as (t & q & _ & _ & _ & _ & _ & Etr & Ert & _).
    constructor; rewrite Ert, ?Etr, Er; try discriminate; auto.
  - apply step_settle_inv in H
      as (c & rest & c' & rs' & r' & _ & Ab & Est & _ & _ & _ & Ers & Hcase).
    apply absorb_keeps in Ab as (Kt & Ktps & Kb & Ka).
    destruct Hcase as [[Ert Etr]|[Ert Etr]]; rewrite Er in Ert.
    + constructor; rewrite Ert; simpl; try discriminate.
      intros _. exists now, r'. rewrite Etr, Est, Ers. split; congruence.
    + constructor; rewrite Ert, ?Etr; try discriminate.
      intros _. repeat split; congruence.
Qed.

Lemma staged_run r0 now0 es (s : state Message) :
  errors r0 = 0 ->
  run generateMessage cfg (init cfg r0 now0) es = Some s ->
  staged r0 s.
Proof.
  intros E0 H.
  assert (P : Lanes.wf (lanes_config cfg) (lanes_state s) /\
              Lanes.counted (lanes_config cfg) 0 (lanes_state s) /\
              Lanes.fresh (lanes_config cfg) (lanes_state s) /\
              staged r0 s).
  { apply (run_invariant
             (fun s => Lanes.wf (lanes_config cfg) (lanes_state s) /\
                       Lanes.counted (lanes_config cfg) 0 (lanes_state s) /\
                       Lanes.fresh (lanes_config cfg) (lanes_state s) /\
                       staged r0 s)) with (3 := H).
    - intros s1 e s2 (W & C & F & St) Hs.
      pose proof (step_project _ _ _ Hs) as HS.
      split; [|split; [|split]].
      + eapply LanesFacts.wf_step; eauto.
      + eapply LanesFacts.counted_step; eauto.
      + eapply LanesFacts.fresh_step; eauto.
      + eapply staged_step; eauto.
    - rewrite lanes_init, E0. split; [|split; [|split]].
      + apply LanesFacts.wf_init; auto.
      + apply LanesFacts.counted_init.
      + apply LanesFacts.fresh_init; auto.
      + constructor; simpl; auto; discriminate. }
  apply P.
Qed.

(** ** Termination *)

Lemma run_bounded r0 now0 es (s : state Message) :
  run generateMessage cfg (init cfg r0 now0) es = Some s ->
  Z.of_nat (List.length es) <= 2 * totalBatches cfg.
Proof.
  intros H. rewrite <- (steps_run _ _ _ _ H).
  pose proof (LanesFacts.finished_short (lanes_config cfg) total_pos concurrency_pos
                _ (wf_run _ _ _ _ H)) as B.
  change (Lanes.total (lanes_config cfg)) with (totalBatches cfg) in B.
  unfold Lanes.steps_taken. lia.
Qed.

Lemma take_call_in (c : call Message) l :
  In c l -> exists d rest, take_call (Lanes.index (task c)) l = Some (d, rest).
Proof.
  induction l as [|x l IH]; simpl; [tauto|]. intros [->|H].
  - rewrite Z.eqb_refl. eauto.
  - destruct (Lanes.index (task x) =? Lanes.index (task c)); eauto.
    destruct (IH H) as (u & rest & ->). eauto.
Qed.

(** A queued callback can always run. *)
Lemma immediate_enabled (s : state Message) now :
  immediates s <> [] ->
  exists s', step generateMessage cfg s (Immediate now) = Some s'.
Proof.
  intros H. simpl. destruct (immediates s) as [|t q]; [congruence|].
  destruct (totalBatches cfg <=? Lanes.index t); eauto.
Qed.

(** A suspended call can always resume, whatever the backend did. *)
Lemma settle_enabled (s : state Message) c o endTime stamp now :
  In c (inflight s) ->
  exists s',
    step generateMessage cfg s (Settle (Lanes.index (task c)) o endTime stamp now)
    = Some s'.
Proof.
  intros H. simpl. destruct (take_call_in _ _ H) as (d & rest & ->).
  destruct (absorb _ _ _ _) as [[c' rs'] r'].
  destruct (_ && _); eauto. destruct (_ <? _); eauto.
Qed.

(** While the promise of a fresh run is pending, a callback is queued
    or a call is suspended. *)
Lemma pending_live (s : state Message) now0 es :
  run generateMessage cfg (init cfg new_results now0) es = Some s ->
  result_of s = None ->
  immediates s <> [] \/ inflight s <> [].
Proof.
  intros H N.
  pose proof (wf_run _ _ _ _ H) as W.
  pose proof (fresh_run new_results _ _ _ eq_refl H) as F.
  destruct (immediates s) as [|t q] eqn:Eq; [|left; discriminate].
  destruct (inflight s) as [|c l] eqn:Ei; [|right; discriminate].
  exfalso.
  assert (Q : Lanes.quiescent (lanes_state s))
    by (split; simpl; [exact Eq | now rewrite Ei]).
  apply (LanesFacts.settled_quiescent (lanes_config cfg)) in Q; auto.
  simpl in Q. unfold result_of in N.
  pose proof (st_rejected _ _ (staged_run new_results _ _ _ eq_refl H)) as NR.
  destruct (returned s); simpl in Q; try discriminate. now apply (NR reason).
Qed.

Lemma pending_progress (s : state Message) now0 es :
  run generateMessage cfg (init cfg new_results now0) es = Some s ->
  result_of s = None ->
  exists e s', step generateMessage cfg s e = Some s'.
Proof.
  intros H N. destruct (pending_live _ _ _ H N) as [Hq|Hi].
  - destruct (immediate_enabled s 0 Hq) as [s' Hs']. eauto.
  - destruct (inflight s) as [|c l] eqn:Ei; [congruence|].
    destruct (settle_enabled s c Returned 0 0 0) as [s' Hs'];
      [rewrite Ei; now left | eauto].
Qed.

(** When no call threw, the records pushed are those of the calls that
    ran to their end, in the same order. *)
Lemma recorded_indices es : forall s s' : state Message,
  forallb recorded es = true ->
  run generateMessage cfg s es = Some s' ->
  map batchIndex (results s) = map Lanes.index (finished s) ->
  map batchIndex (results s') = map Lanes.index (finished s').
Proof.
  induction es as [|e es IH]; simpl; intros s s' Hf H Hs.
  - now inversion H; subst.
  - apply andb_prop in Hf as [He Hf].
    destruct (step generateMessage cfg s e) as [s1|] eqn:E; [|discriminate].
    apply (IH s1 s' Hf H).
    destruct e as [now|i o endTime stamp now].
    + apply step_immediate_inv in E as (t & q & _ & _ & -> & _ & -> & _).
      exact Hs.
    + apply step_settle_inv in E
        as (c & rest & c' & rs' & r' & _ & Ab & _ & _ & -> & _ & -> & _).
      unfold absorb in Ab.
      destruct o as [|[m| |]]; simpl in Ab; try discriminate;
        injection Ab as _ <- _; rewrite !map_app, Hs; reflexivity.
Qed.

Lemma run_app es1 es2 : forall s : state Message,
  run generateMessage cfg s (es1 ++ es2) =
  match run generateMessage cfg s es1 with
  | Some s1 => run generateMessage cfg s1 es2
  | None => None
  end.
Proof.
  induction es1 as [|e es1 IH]; intros s; simpl; [reflexivity|].
  destruct (step generateMessage cfg s e); auto.
Qed.

(** Every run of a fresh instance can be continued until its promise is
    fulfilled, whatever the backend answers from then on: here it
    answers [o] every time. *)
Lemma run_completes (o : outcome) now0 (n : nat) : forall es (s : state Message),
  run generateMessage cfg (init cfg new_results now0) es = Some s ->
  (Z.to_nat (2 * totalBatches cfg) - List.length es <= n)%nat ->
  exists es' s' r,
    run generateMessage cfg s es' = Some s' /\ result_of s' = Some r /\
    Forall (fun e => e = Immediate 0 \/ exists i, e = Settle i o 0 0 0) es'.
Proof.
  induction n as [|n IH]; intros es s H Hn.
  - destruct (result_of s) as [r|] eqn:R.
    + exists [], s, r. repeat split; auto.
    + exfalso. destruct (pending_progress _ _ _ H R) as (e & s1 & Hs).
      assert (H1 : run generateMessage cfg (init cfg new_results now0) (es ++ [e])
                   = Some s1) by (rewrite run_app, H; simpl; now rewrite Hs).
      apply run_bounded in H1. pose proof (run_bounded _ _ _ _ H).
      rewrite length_app in H1. cbn [List.length] in H1. lia.
  - destruct (result_of s) as [r|] eqn:R.
    + exists [], s, r. repeat split; auto.
    + assert (He : exists e s1,
                 (e = Immediate 0 \/ exists i, e = Settle i o 0 0 0) /\
                 step generateMessage cfg s e = Some s1).
      { destruct (pending_live _ _ _ H R) as [Hq|Hi].
        - destruct (immediate_enabled s 0 Hq) as [s1 Hs]. eauto.
        - destruct (inflight s) as [|c l] eqn:Ei; [congruence|].
          destruct (settle_enabled s c o 0 0 0) as [s1 Hs]; [rewrite Ei; now left|].
          eauto 6. }
      destruct He as (e & s1 & Pe & Hs).
      assert (H1 : run generateMessage cfg (init cfg new_results now0) (es ++ [e])
                   = Some s1) by (rewrite run_app, H; simpl; now rewrite Hs).
      destruct (IH _ _ H1) as (es' & s' & r & Hr & Rr & Fa).
      { rewrite length_app. cbn [List.length]. lia. }
      exists (e :: es'), s', r. repeat split; auto.
      simpl. now rewrite Hs.
Qed.

(** ** The fulfilled run *)

Lemma fulfilled_final now0 es (s : state Message) r :
  run generateMessage cfg (init cfg new_results now0) es = Some s ->
  result_of s = Some r ->
  r = this_results s /\
  (forall e, step generateMessage cfg s e = None) /\
  Z.of_nat (List.length es) = 2 * totalBatches cfg /\
  Permutation (Lanes.attempted (lanes_state s))
              (map Z.of_nat (seq 0 (Z.to_nat (totalBatches cfg)))) /\
  completedBatches s + errors r = totalBatches cfg /\
  completedBatches s = Z.of_nat (List.length (filter success (batches r))) /\
  exists now pre,
    r = finalize (startTime s) now (results s) pre /\
    avgLatency pre = JsNum.of_Z 0.
Proof.
  intros H R.
  pose proof (wf_run _ _ _ _ H) as W.
  pose proof (fresh_run new_results _ _ _ eq_refl H) as F.
  pose proof (counted_run _ _ _ _ H) as C.
  pose proof (staged_run new_results _ _ _ eq_refl H) as St.
  pose proof (accounted_run new_results now0 es s ltac:(discriminate) H) as A.
  unfold result_of in R. destruct (returned s) eqn:Er; try discriminate.
  inversion R; subst r; clear R.
  assert (Sd : Lanes.settled (lanes_state s) = true) by (simpl; now rewrite Er).
  pose proof (proj1 (LanesFacts.settled_quiescent (lanes_config cfg) total_pos
                       concurrency_pos _ W F) Sd)
    as Q.
  pose proof (LanesFacts.quiescent_length (lanes_config cfg) total_pos concurrency_pos
                _ W F Q) as L.
  destruct (st_fulfilled _ _ St Er) as (now & pre & Ef & Ea).
  split; [reflexivity|]. split; [|split; [|split; [|split; [|split]]]].
  - intros e. apply fulfilled_stuck; auto. congruence.
  - rewrite <- (steps_run _ _ _ _ H). unfold Lanes.steps_taken.
    destruct Q as [_ Qi]. rewrite Qi.
    change (Lanes.total (lanes_config cfg)) with (totalBatches cfg) in L.
    cbn [List.length]. lia.
  - unfold Lanes.attempted. destruct Q as [_ Qi]. rewrite Qi, app_nil_r.
    apply LanesFacts.settled_indices with (cfg := lanes_config cfg); auto.
  - pose proof (Lanes.ct_sum _ _ _ C) as Sm.
    change (Lanes.total (lanes_config cfg)) with (totalBatches cfg) in L.
    cbn [Lanes.completed Lanes.errors Lanes.finished lanes_state] in Sm, L.
    cbn [errors new_results] in Sm. lia.
  - rewrite (ac_completed _ _ _ _ A). rewrite Ef at 1. reflexivity.
  - exists now, pre. split; auto.
Qed.


End Facts.
End WriteInv.

(* ================================================================== *)
(** * Facts about the read runner *)
(* ================================================================== *)

Module ReadFacts.
Import ReadTest.

Section Facts.
Variable Message : Type.
Variable getRandomUserId : Z -> string.
Variable cfg : config.

Lemma read_take_call_task i (l : list call) :
  Lanes.take_task i (map task l) =
  option_map (fun p => (task (fst p), map task (snd p))) (take_call i l).
Proof.
  induction l as [|c l IH]; simpl; [reflexivity|].
  destruct (Lanes.index (task c) =? i); [reflexivity|].
  rewrite IH. destruct (take_call i l) as [[d r]|]; reflexivity.
Qed.

Lemma read_lanes_init r0 now :
  lanes_state (init cfg r0 now) =
  Lanes.init (lanes_config cfg) (errors r0).
Proof. reflexivity. Qed.

Lemma read_step_lanes (s : state) (e : event Message) :
  option_map lanes_state (step getRandomUserId cfg s e) =
  Lanes.step (lanes_config cfg) (lanes_state s) (lanes_event e).
Proof.
  destruct e as [now | i o endTime stamp now]; simpl.
  - destruct (immediates s) as [|t q]; [reflexivity|].
    destruct (Cfg.totalQueries cfg <=? Lanes.index t); simpl; unfold lanes_state; simpl;
      [reflexivity|]. now rewrite map_app.
  - rewrite read_take_call_task.
    destruct (take_call i (inflight s)) as [[c rest]|]; [|reflexivity].
    simpl.
    destruct o as [msgs|[m| |]]; simpl;
      repeat match goal with
             | |- context [if ?b then _ else _] => destruct b
             end; simpl; unfold lanes_state; simpl;
      try reflexivity; destruct (returned s); reflexivity.
Qed.

Lemma read_run_lanes (es : list (event Message)) : forall s : state,
  option_map lanes_state (run getRandomUserId cfg s es) =
  Lanes.run (lanes_config cfg) (lanes_state s) (map lanes_event es).
Proof.
  induction es as [|e es IH]; intros s; simpl; [reflexivity|].
  rewrite <- read_step_lanes. destruct (step getRandomUserId cfg s e) as [s1|]; simpl; auto.
Qed.
End Facts.
End ReadFacts.

Module ReadInv.
Import ReadTest.
Import ReadFacts JsNumFacts.

Section Facts.
Variable Message : Type.
Variable getRandomUserId : Z -> string.
Variable cfg : config.

Lemma read_take_call_spec i (l : list call) c rest :
  take_call i l = Some (c, rest) ->
  Lanes.index (task c) = i /\ Permutation l (c :: rest).
Proof.
  revert c rest; induction l as [|u l IH]; simpl; intros c rest H; [discriminate|].
  destruct (Z.eqb_spec (Lanes.index (task u)) i) as [E|E].
  - inversion H; subst; split; auto.
  - destruct (take_call i l) as [[v r]|] eqn:Ht; [|discriminate].
    inversion H; subst. destruct (IH _ _ eq_refl) as [? P]. split; auto.
    rewrite perm_swap. now constructor.
Qed.

Lemma read_run_invariant (P : state -> Prop) :
  (forall s (e : event Message) s',
      P s -> step getRandomUserId cfg s e = Some s' -> P s') ->
  forall (es : list (event Message)) s s',
    P s -> run getRandomUserId cfg s es = Some s' -> P s'.
Proof.
  intros Hstep. induction es as [|e es IH]; simpl; intros s s' Hs H.
  - now inversion H; subst.
  - destruct (step getRandomUserId cfg s e) as [s1|] eqn:E; [|discriminate].
    eauto.
Qed.

Lemma read_step_immediate_inv (s : state) now s' :
  step getRandomUserId cfg s (Immediate (Message := Message) now) = Some s' ->
  exists t q,
    immediates s = t :: q /\
    startTime s' = startTime s /\ finished s' = finished s /\
    completedQueries s' = completedQueries s /\ results s' = results s /\
    this_results s' = this_results s /\ returned s' = returned s /\
    (inflight s' = inflight s \/
     inflight s' = inflight s ++
       [mkCall t (getRandomUserId (Lanes.index t)) now]).
Proof.
  simpl. destruct (immediates s) as [|t q]; [discriminate|].
  destruct (Cfg.totalQueries cfg <=? Lanes.index t); intros H; inversion H; subst;
    simpl; exists t, q; repeat split; auto.
Qed.

Lemma read_step_settle_inv (s : state) i (o : outcome Message) endTime stamp now s' :
  step getRandomUserId cfg s (Settle i o endTime stamp now) = Some s' ->
  exists c rest completed' results' r',
    take_call i (inflight s) = Some (c, rest) /\
    absorb (executeQuery_resume (callUser c) (Lanes.index (task c))
                                (callStart c) o endTime stamp)
           (completedQueries s) (results s) (this_results s)
    = (completed', results', r') /\
    startTime s' = startTime s /\ inflight s' = rest /\
    finished s' = finished s ++ [task c] /\
    completedQueries s' = completed' /\ results s' = results' /\
    ((returned s' = resolve (returned s) /\
      this_results s' = finalize (startTime s) now completed' results' r') \/
     (returned s' = returned s /\ this_results s' = r')).
Proof.
  simpl. destruct (take_call i (inflight s)) as [[c rest]|]; [|discriminate].
  destruct (absorb _ _ _ _) as [[completed' results'] r'] eqn:E.
  intros H. exists c, rest, completed', results', r'.
  destruct (_ && _); [|destruct (_ <? _)]; inversion H; subst; simpl;
    repeat split; auto.
Qed.

(** ** Accounting *)

Lemma read_accounted_init r0 :
  minLatency r0 <> JsNum.NaN -> accounted r0 0 [] r0.
Proof.
  intros H. constructor; simpl; try lia; try tauto.
  - rewrite sum_Z_nil. lia.
  - now apply le_refl.
Qed.

Lemma read_accounted_absorb r0 x completed results r completed' results' r' :
  accounted r0 completed results r ->
  absorb x completed results r = (completed', results', r') ->
  accounted r0 completed' results' r'.
Proof.
  intros [Hr Hc He Hmo Hm Hno Hn] E. unfold absorb in E.
  destruct x as [ex|b]; inversion E; subst; clear E.
  - constructor; simpl; auto; lia.
  - pose proof (proj1 (le_not_nan _ _ Hno)) as NN.
    constructor; simpl; rewrite ?filter_app; simpl.
    + destruct (success b); simpl; rewrite ?app_nil_r; auto.
      rewrite map_app, sum_Z_app. simpl. rewrite sum_Z_cons, sum_Z_nil. lia.
    + destruct (success b); simpl; rewrite ?app_nil_r; auto.
      rewrite length_app. cbn [List.length]. lia.
    + destruct (success b); simpl; rewrite ?app_nil_r; try lia.
      rewrite length_app. cbn [List.length]. lia.
    + lia.
    + intros b' Hb'. apply in_app_or in Hb' as [Hb'|[<-|[]]]; [|lia].
      apply Hm in Hb'. lia.
    + now apply min_le_old.
    + intros b' Hb'. apply in_app_or in Hb' as [Hb'|[<-|[]]].
      * now apply min_le_keep, Hn.
      * now apply min_le_new.
Qed.

Lemma read_accounted_finalize r0 completed results r st now :
  accounted r0 completed results r ->
  accounted r0 completed results (finalize st now completed results r).
Proof. intros [Hr Hc He Hmo Hm Hno Hn]. constructor; simpl; auto. Qed.

Lemma read_accounted_step r0 (s : state) (e : event Message) s' :
  accounted r0 (completedQueries s) (results s) (this_results s) ->
  step getRandomUserId cfg s e = Some s' ->
  accounted r0 (completedQueries s') (results s') (this_results s').
Proof.
  intros A H. destruct e as [now|i o endTime stamp now].
  - apply read_step_immediate_inv in H
      as (t & q & _ & _ & _ & -> & -> & -> & _). exact A.
  - apply read_step_settle_inv in H
      as (c & rest & c' & rs' & r' & _ & Ab & _ & _ & _ & -> & -> & Hr).
    pose proof (read_accounted_absorb _ _ _ _ _ _ _ _ A Ab) as A'.
    destruct Hr as [[_ ->]|[_ ->]]; auto using read_accounted_finalize.
Qed.

Lemma read_accounted_run r0 now0 (es : list (event Message)) (s : state) :
  minLatency r0 <> JsNum.NaN ->
  run getRandomUserId cfg (init cfg r0 now0) es = Some s ->
  accounted r0 (completedQueries s) (results s) (this_results s).
Proof.
  intros NN H.
  apply (read_run_invariant
           (fun s => accounted r0 (completedQueries s) (results s) (this_results s)))
    with (3 := H).
  - intros; eauto using read_accounted_step.
  - simpl. now apply read_accounted_init.
Qed.

(** ** The dispatcher's invariants, read on the runner's state *)

Hypothesis total_pos : 1 <= Cfg.totalQueries cfg.
Hypothesis concurrency_pos : 1 <= Cfg.concurrency cfg.

Lemma read_step_project (s : state) (e : event Message) s' :
  step getRandomUserId cfg s e = Some s' ->
  Lanes.Step (lanes_config cfg) (lanes_state s) (lanes_event e) (lanes_state s').
Proof.
  intros H. apply LanesFacts.step_Step.
  rewrite <- (read_step_lanes _ getRandomUserId), H. reflexivity.
Qed.

Lemma read_run_project (es : list (event Message)) (s s' : state) :
  run getRandomUserId cfg s es = Some s' ->
  Lanes.run (lanes_config cfg) (lanes_state s) (map lanes_event es)
  = Some (lanes_state s').
Proof. intros H. rewrite <- (read_run_lanes _ getRandomUserId), H. reflexivity. Qed.

Lemma read_wf_run r0 now0 (es : list (event Message)) (s : state) :
  run getRandomUserId cfg (init cfg r0 now0) es = Some s ->
  Lanes.wf (lanes_config cfg) (lanes_state s).
Proof.
  intros H. apply read_run_project in H.
  eapply LanesFacts.run_wf; eauto. apply LanesFacts.wf_init; auto.
Qed.

Lemma read_counted_run r0 now0 (es : list (event Message)) (s : state) :
  run getRandomUserId cfg (init cfg r0 now0) es = Some s ->
  Lanes.counted (lanes_config cfg) (errors r0) (lanes_state s).
Proof.
  intros H. apply read_run_project in H.
  eapply LanesFacts.run_counted; eauto. apply LanesFacts.counted_init.
Qed.

Lemma read_fresh_run r0 now0 (es : list (event Message)) (s : state) :
  errors r0 = 0 ->
  run getRandomUserId cfg (init cfg r0 now0) es = Some s ->
  Lanes.fresh (lanes_config cfg) (lanes_state s).
Proof.
  intros E H. apply read_run_project in H. rewrite read_lanes_init, E in H.
  eapply LanesFacts.run_fresh; eauto.
  - apply LanesFacts.wf_init; auto.
  - apply LanesFacts.counted_init.
  - apply LanesFacts.fresh_init; auto.
Qed.

Lemma read_steps_run r0 now0 (es : list (event Message)) (s : state) :
  run getRandomUserId cfg (init cfg r0 now0) es = Some s ->
  Lanes.steps_taken (lanes_state s) = Z.of_nat (List.length es).
Proof.
  intros H. apply read_run_project in H.
  eapply LanesFacts.run_steps in H; eauto; [|apply LanesFacts.wf_init; auto].
  rewrite H, length_map. reflexivity.
Qed.

(** ** The fields written on completion *)

Lemma read_absorb_keeps x c rs r c' rs' r' :
  absorb x c rs r = (c', rs', r') ->
  totalQueries r' = totalQueries r /\ totalTime r' = totalTime r /\
  qps r' = qps r /\ queries r' = queries r /\
  avgLatency r' = avgLatency r /\
  avgRecordsPerQuery r' = avgRecordsPerQuery r.
Proof.
  unfold absorb. destruct x as [ex|b]; intros H; inversion H; subst; simpl;
    repeat split; auto.
Qed.

(** On a fresh instance a fulfilled run takes no further step. *)
Lemma read_fulfilled_stuck (s : state) (e : event Message) :
  Lanes.wf (lanes_config cfg) (lanes_state s) ->
  Lanes.fresh (lanes_config cfg) (lanes_state s) ->
  returned s <> Pending ->
  step getRandomUserId cfg s e = None.
Proof.
  intros W F H.
  assert (Q : Lanes.quiescent (lanes_state s)).
  { apply LanesFacts.settled_quiescent with (cfg := lanes_config cfg); auto.
    simpl. destruct (returned s); simpl; congruence. }
  pose proof (LanesFacts.quiescent_stuck (lanes_config cfg) _ (lanes_event e) Q) as N.
  rewrite <- (read_step_lanes _ getRandomUserId) in N.
  destruct (step getRandomUserId cfg s e); [discriminate|reflexivity].
Qed.

Lemma read_staged_step r0 (s : state) (e : event Message) s' :
  Lanes.wf (lanes_config cfg) (lanes_state s) ->
  Lanes.fresh (lanes_config cfg) (lanes_state s) ->
  staged r0 s ->
  step getRandomUserId cfg s e = Some s' ->
  staged r0 s'.
Proof.
  intros W F [Hp Hf Hr] H.
  destruct (returned s) eqn:Er.
  2,3: rewrite read_fulfilled_stuck in H; auto; try discriminate; congruence.
  specialize (Hp eq_refl). destruct Hp as (Hq & Ht & Hqps & Hb & Ha & Hv).
  destruct e as [now|i o endTime stamp now].
  - apply read_step_immediate_inv in H
      as (t & q & _ & _ & _ & _ & _ & Etr & Ert & _).
    constructor; rewrite Ert, ?Etr, Er; try discriminate; auto.
    intros _. repeat split; auto.
  - apply read_step_settle_inv in H
      as (c & rest & c' & rs' & r' & _ & Ab & Est & _ & _ & Ecq & Ers & Hcase).
    apply read_absorb_keeps in Ab as (Kq & Kt & Kqps & Kb & Ka & Kv).
    destruct Hcase as [[Ert Etr]|[Ert Etr]]; rewrite Er in Ert.
    + constructor; rewrite Ert; simpl; try discriminate.
      intros _. exists now, r'. rewrite Etr, Est, Ers, Ecq. split; congruence.
    + constructor; rewrite Ert, ?Etr; try discriminate.
      intros _. repeat split; congruence.
Qed.

Lemma read_staged_run r0 now0 (es : list (event Message)) (s : state) :
  errors r0 = 0 ->
  run getRandomUserId cfg (init cfg r0 now0) es = Some s ->
  staged r0 s.
Proof.
  intros E0 H.
  assert (P : Lanes.wf (lanes_config cfg) (lanes_state s) /\
              Lanes.counted (lanes_config cfg) 0 (lanes_state s) /\
              Lanes.fresh (lanes_config cfg) (lanes_state s) /\
              staged r0 s).
  { apply (read_run_invariant
             (fun s => Lanes.wf (lanes_config cfg) (lanes_state s) /\
                       Lanes.counted (lanes_config cfg) 0 (lanes_state s) /\
                       Lanes.fresh (lanes_config cfg) (lanes_state s) /\
                       staged r0 s)) with (3 := H).
    - intros s1 e s2 (W & C & F & St) Hs.
      pose proof (read_step_project _ _ _ Hs) as HS.
      split; [|split; [|split]].
      + eapply LanesFacts.wf_step; eauto.
      + eapply LanesFacts.counted_step; eauto.
      + eapply LanesFacts.fresh_step; eauto.
      + eapply read_staged_step; eauto.
    - rewrite read_lanes_init, E0. split; [|split; [|split]].
      + apply LanesFacts.wf_init; auto.
      + apply LanesFacts.counted_init.
      + apply LanesFacts.fresh_init; auto.
      + constructor; simpl; try discriminate. intros _. repeat split; auto. }
  apply P.
Qed.

(** ** Termination *)

Lemma read_run_bounded r0 now0 (es : list (event Message)) (s : state) :
  run getRandomUserId cfg (init cfg r0 now0) es = Some s ->
  Z.of_nat (List.length es) <= 2 * Cfg.totalQueries cfg.
Proof.
  intros H. rewrite <- (read_steps_run _ _ _ _ H).
  pose proof (LanesFacts.finished_short (lanes_config cfg) total_pos concurrency_pos
                _ (read_wf_run _ _ _ _ H)) as B.
  change (Lanes.total (lanes_config cfg)) with (Cfg.totalQueries cfg) in B.
  unfold Lanes.steps_taken. lia.
Qed.

Lemma read_take_call_in (c : call) l :
  In c l -> exists d rest, take_call (Lanes.index (task c)) l = Some (d, rest).
Proof.
  induction l as [|x l IH]; simpl; [tauto|]. intros [->|H].
  - rewrite Z.eqb_refl. eauto.
  - destruct (Lanes.index (task x) =? Lanes.index (task c)); eauto.
    destruct (IH H) as (u & rest & ->). eauto.
Qed.

(** A queued callback can always run. *)
Lemma read_immediate_enabled (s : state) now :
  immediates s <> [] ->
  exists s', step getRandomUserId cfg s (Immediate (Message := Message) now) = Some s'.
Proof.
  intros H. simpl. destruct (immediates s) as [|t q]; [congruence|].
  destruct (Cfg.totalQueries cfg <=? Lanes.index t); eauto.
Qed.

(** A suspended call can always resume, whatever the backend did. *)
Lemma read_settle_enabled (s : state) c (o : outcome Message) endTime stamp now :
  In c (inflight s) ->
  exists s',
    step getRandomUserId cfg s (Settle (Lanes.index (task c)) o endTime stamp now)
    = Some s'.
Proof.
  intros H. simpl. destruct (read_take_call_in _ _ H) as (d & rest & ->).
  destruct (absorb _ _ _ _) as [[c' rs'] r'].
  destruct (_ && _); eauto. destruct (_ <? _); eauto.
Qed.

Lemma read_pending_progress (s : state) now0 (es : list (event Message)) :
  run getRandomUserId cfg (init cfg new_results now0) es = Some s ->
  result_of s = None ->
  exists (e : event Message) s', step getRandomUserId cfg s e = Some s'.
Proof.
  intros H N.
  pose proof (read_wf_run _ _ _ _ H) as W.
  pose proof (read_fresh_run new_results _ _ _ eq_refl H) as F.
  destruct (immediates s) as [|t q] eqn:Eq.
  - destruct (inflight s) as [|c l] eqn:Ei.
    + exfalso.
      assert (Q : Lanes.quiescent (lanes_state s))
        by (split; simpl; [exact Eq | now rewrite Ei]).
      apply (LanesFacts.settled_quiescent (lanes_config cfg)) in Q; auto.
      simpl in Q. unfold result_of in N.
      pose proof (st_rejected _ _ (read_staged_run new_results _ _ _ eq_refl H)) as NR.
      destruct (returned s); simpl in Q; try discriminate. now apply (NR reason).
    + destruct (read_settle_enabled s c (Returned []) 0 0 0) as [s' Hs'];
        [rewrite Ei; now left | eauto].
  - destruct (read_immediate_enabled s 0) as [s' Hs']; [congruence | eauto].
Qed.

Lemma read_recorded_indices (es : list (event Message)) : forall s s' : state,
  forallb recorded es = true ->
  run getRandomUserId cfg s es = Some s' ->
  map queryIndex (results s) = map Lanes.index (finished s) ->
  map queryIndex (results s') = map Lanes.index (finished s').
Proof.
  induction es as [|e es IH]; simpl; intros s s' Hf H Hs.
  - now inversion H; subst.
  - apply andb_prop in Hf as [He Hf].
    destruct (step getRandomUserId cfg s e) as [s1|] eqn:E; [|discriminate].
    apply (IH s1 s' Hf H).
    destruct e as [now|i o endTime stamp now].
    + apply read_step_immediate_inv in E as (t & q & _ & _ & -> & _ & -> & _).
      exact Hs.
    + apply read_step_settle_inv in E
        as (c & rest & c' & rs' & r' & _ & Ab & _ & _ & -> & _ & -> & _).
      unfold absorb in Ab.
      destruct o as [msgs|[m| |]]; simpl in Ab; try discriminate;
        injection Ab as _ <- _; rewrite !map_app, Hs; reflexivity.
Qed.

Lemma read_run_app (es1 es2 : list (event Message)) : forall s : state,
  run getRandomUserId cfg s (es1 ++ es2) =
  match run getRandomUserId cfg s es1 with
  | Some s1 => run getRandomUserId cfg s1 es2
  | None => None
  end.
Proof.
  induction es1 as [|e es1 IH]; intros s; simpl; [reflexivity|].
  destruct (step getRandomUserId cfg s e); auto.
Qed.

Lemma read_pending_live (s : state) now0 (es : list (event Message)) :
  run getRandomUserId cfg (init cfg new_results now0) es = Some s ->
  result_of s = None ->
  immediates s <> [] \/ inflight s <> [].
Proof.
  intros H N.
  pose proof (read_wf_run _ _ _ _ H) as W.
  pose proof (read_fresh_run new_results _ _ _ eq_refl H) as F.
  destruct (immediates s) as [|t q] eqn:Eq; [|left; discriminate].
  destruct (inflight s) as [|c l] eqn:Ei; [|right; discriminate].
  exfalso.
  assert (Q : Lanes.quiescent (lanes_state s))
    by (split; simpl; [exact Eq | now rewrite Ei]).
  apply (LanesFacts.settled_quiescent (lanes_config cfg)) in Q; auto.
  simpl in Q. unfold result_of in N.
  pose proof (st_rejected _ _ (read_staged_run new_results _ _ _ eq_refl H)) as NR.
  destruct (returned s); simpl in Q; try discriminate. now apply (NR reason).
Qed.

Lemma read_run_completes (o : outcome Message) now0 (n : nat) :
  forall (es : list (event Message)) (s : state),
  run getRandomUserId cfg (init cfg new_results now0) es = Some s ->
  (Z.to_nat (2 * Cfg.totalQueries cfg) - List.length es <= n)%nat ->
  exists es' s' r,
    run getRandomUserId cfg s es' = Some s' /\ result_of s' = Some r /\
    Forall (fun e => e = Immediate 0 \/ exists i, e = Settle i o 0 0 0) es'.
Proof.
  induction n as [|n IH]; intros es s H Hn.
  - destruct (result_of s) as [r|] eqn:R.
    + exists [], s, r. repeat split; auto.
    + exfalso. destruct (read_pending_progress _ _ _ H R) as (e & s1 & Hs).
      assert (H1 : run getRandomUserId cfg (init cfg new_results now0) (es ++ [e])
                   = Some s1) by (rewrite read_run_app, H; simpl; now rewrite Hs).
      apply read_run_bounded in H1. pose proof (read_run_bounded _ _ _ _ H).
      rewrite length_app in H1. cbn [List.length] in H1. lia.
  - destruct (result_of s) as [r|] eqn:R.
    + exists [], s, r. repeat split; auto.
    + assert (He : exists e s1,
                 (e = Immediate 0 \/ exists i, e = Settle i o 0 0 0) /\
                 step getRandomUserId cfg s e = Some s1).
      { destruct (read_pending_live _ _ _ H R) as [Hq|Hi].
        - destruct (read_immediate_enabled s 0 Hq) as [s1 Hs]. eauto.
        - destruct (inflight s) as [|c l] eqn:Ei; [congruence|].
          destruct (read_settle_enabled s c o 0 0 0) as [s1 Hs];
            [rewrite Ei; now left|].
          eauto 6. }
      destruct He as (e & s1 & Pe & Hs).
      assert (H1 : run getRandomUserId cfg (init cfg new_results now0) (es ++ [e])
                   = Some s1) by (rewrite read_run_app, H; simpl; now rewrite Hs).
      destruct (IH _ _ H1) as (es' & s' & r & Hr & Rr & Fa).
      { rewrite length_app. cbn [List.length]. lia. }
      exists (e :: es'), s', r. repeat split; auto.
      simpl. now rewrite Hs.
Qed.

(** ** The fulfilled run *)

Lemma read_fulfilled_final now0 (es : list (event Message)) (s : state) r :
  run getRandomUserId cfg (init cfg new_results now0) es = Some s ->
  result_of s = Some r ->
  r = this_results s /\
  (forall e : event Message, step getRandomUserId cfg s e = None) /\
  Z.of_nat (List.length es) = 2 * Cfg.totalQueries cfg /\
  Permutation (Lanes.attempted (lanes_state s))
              (map Z.of_nat (seq 0 (Z.to_nat (Cfg.totalQueries cfg)))) /\
  completedQueries s + errors r = Cfg.totalQueries cfg /\
  completedQueries s = Z.of_nat (List.length (filter success (queries r))) /\
  exists now pre,
    r = finalize (startTime s) now (completedQueries s) (results s) pre /\
    avgLatency pre = JsNum.of_Z 0.
Proof.
  intros H R.
  pose proof (read_wf_run _ _ _ _ H) as W.
  pose proof (read_fresh_run new_results _ _ _ eq_refl H) as F.
  pose proof (read_counted_run _ _ _ _ H) as C.
  pose proof (read_staged_run new_results _ _ _ eq_refl H) as St.
  pose proof (read_accounted_run new_results now0 es s ltac:(discriminate) H) as A.
  unfold result_of in R. destruct (returned s) eqn:Er; try discriminate.
  inversion R; subst r; clear R.
  assert (Sd : Lanes.settled (lanes_state s) = true) by (simpl; now rewrite Er).
  pose proof (proj1 (LanesFacts.settled_quiescent (lanes_config cfg) total_pos
                       concurrency_pos _ W F) Sd)
    as Q.
  pose proof (LanesFacts.quiescent_length (lanes_config cfg) total_pos concurrency_pos
                _ W F Q) as L.
  destruct (st_fulfilled _ _ St Er) as (now & pre & Ef & Ea).
  split; [reflexivity|]. split; [|split; [|split; [|split; [|split]]]].
  - intros e. apply read_fulfilled_stuck; auto. congruence.
  - rewrite <- (read_steps_run _ _ _ _ H). unfold Lanes.steps_taken.
    destruct Q as [_ Qi]. rewrite Qi.
    change (Lanes.total (lanes_config cfg)) with (Cfg.totalQueries cfg) in L.
    cbn [List.length]. lia.
  - unfold Lanes.attempted. destruct Q as [_ Qi]. rewrite Qi, app_nil_r.
    apply LanesFacts.settled_indices with (cfg := lanes_config cfg); auto.
  - pose proof (Lanes.ct_sum _ _ _ C) as Sm.
    change (Lanes.total (lanes_config cfg)) with (Cfg.totalQueries cfg) in L.
    cbn [Lanes.completed Lanes.errors Lanes.finished lanes_state] in Sm, L.
    cbn [errors new_results] in Sm. lia.
  - rewrite (ac_completed _ _ _ _ A). rewrite Ef at 1. reflexivity.
  - exists now, pre. split; auto.
Qed.


End Facts.
End ReadInv.

(* ================================================================== *)
(** * Runs: completion, striping, the concurrency bound *)
(* ================================================================== *)

(** C1. On a fresh test instance with at least one operation and at least
    one worker, every run is at most [2 * total] steps long, never starts an
    index twice, can always take a step while its promise is pending and can
    be continued until the promise is fulfilled; when the promise is
    fulfilled, every index [0 .. total-1] has been attempted exactly once,
    no step is left, and the successes and errors reported add up to
    [total].  Unless a backend call rejected with null or undefined, the
    records reported are one for each index.  This holds for the write
    runner and for the read runner. *)
Theorem C1_every_index_attempted_once :
  forall (Message : Type) (generateMessage : Z -> nat -> Message)
         (getRandomUserId : Z -> string)
         (wcfg : WriteTest.config) (rcfg : ReadTest.config) (wnow rnow : Z)
         (wes : list WriteTest.event) (ws : WriteTest.state Message)
         (res : list (ReadTest.event Message)) (rs : ReadTest.state),
    1 <= WriteTest.totalBatches wcfg ->
    1 <= WriteTest.Cfg.concurrency wcfg ->
    1 <= ReadTest.Cfg.totalQueries rcfg ->
    1 <= ReadTest.Cfg.concurrency rcfg ->
    WriteTest.run generateMessage wcfg
      (WriteTest.init wcfg WriteTest.new_results wnow) wes = Some ws ->
    ReadTest.run getRandomUserId rcfg
      (ReadTest.init rcfg ReadTest.new_results rnow) res = Some rs ->
    (Z.of_nat (List.length wes) <= 2 * WriteTest.totalBatches wcfg /\
     NoDup (Lanes.attempted (WriteTest.lanes_state ws)) /\
     (WriteTest.result_of ws = None ->
      exists e s', WriteTest.step generateMessage wcfg ws e = Some s') /\
     (exists es' s' r,
        WriteTest.run generateMessage wcfg ws es' = Some s' /\
        WriteTest.result_of s' = Some r) /\
     (forall r, WriteTest.result_of ws = Some r ->
        Permutation (Lanes.attempted (WriteTest.lanes_state ws))
                    (map Z.of_nat (seq 0 (Z.to_nat (WriteTest.totalBatches wcfg)))) /\
        Z.of_nat (List.length (filter WriteTest.success (WriteTest.batches r)))
        + WriteTest.errors r = WriteTest.totalBatches wcfg /\
        (forallb WriteTest.recorded wes = true ->
         Permutation (map WriteTest.batchIndex (WriteTest.batches r))
                     (map Z.of_nat (seq 0 (Z.to_nat (WriteTest.totalBatches wcfg))))) /\
        forall e, WriteTest.step generateMessage wcfg ws e = None))
    /\
    (Z.of_nat (List.length res) <= 2 * ReadTest.Cfg.totalQueries rcfg /\
     NoDup (Lanes.attempted (ReadTest.lanes_state rs)) /\
     (ReadTest.result_of rs = None ->
      exists (e : ReadTest.event Message) s',
        ReadTest.step getRandomUserId rcfg rs e = Some s') /\
     (exists (es' : list (ReadTest.event Message)) s' r,
        ReadTest.run getRandomUserId rcfg rs es' = Some s' /\
        ReadTest.result_of s' = Some r) /\
     (forall r, ReadTest.result_of rs = Some r ->
        Permutation (Lanes.attempted (ReadTest.lanes_state rs))
                    (map Z.of_nat (seq 0 (Z.to_nat (ReadTest.Cfg.totalQueries rcfg)))) /\
        ReadTest.totalQueries r + ReadTest.errors r = ReadTest.Cfg.totalQueries rcfg /\
        ReadTest.totalQueries r
        = Z.of_nat (List.length (filter ReadTest.success (ReadTest.queries r))) /\
        (forallb ReadTest.recorded res = true ->
         Permutation (map ReadTest.queryIndex (ReadTest.queries r))
                     (map Z.of_nat (seq 0 (Z.to_nat (ReadTest.Cfg.totalQueries rcfg))))) /\
        forall e : ReadTest.event Message,
          ReadTest.step getRandomUserId rcfg rs e = None)).
Proof.
  intros Message generateMessage getRandomUserId wcfg rcfg wnow rnow wes ws res rs
         HT HC HQ HD Hw Hr.
  split.
  - split; [eapply WriteInv.run_bounded; eauto|].
    split.
    { pose proof (WriteInv.wf_run _ _ _ HT HC _ _ _ _ Hw) as W.
      pose proof (Lanes.wf_index _ _ W) as N.
      unfold Lanes.tasks, Lanes.live in N. rewrite <- app_assoc, map_app in N.
      apply NoDup_app_remove_l in N. unfold Lanes.attempted.
      eapply Permutation_NoDup; [|exact N].
      apply Permutation_map, Permutation_app_comm. }
    split; [intros N; eapply WriteInv.pending_progress; eauto|].
    split.
    { destruct (WriteInv.run_completes _ _ _ HT HC WriteTest.Returned wnow _ _ _ Hw
                  (Nat.le_refl _)) as (es' & s' & r & H' & R' & _).
      eauto. }
    intros r R.
    destruct (WriteInv.fulfilled_final _ _ _ HT HC _ _ _ _ Hw R)
      as (_ & Stuck & _ & P & Sum & Cnt & now & pre & Ef & _).
    split; [exact P|]. split; [now rewrite <- Cnt|]. split; [|exact Stuck].
    intros Rec.
    assert (Eb : WriteTest.batches r = WriteTest.results ws) by (rewrite Ef; reflexivity).
    rewrite Eb, (WriteInv.recorded_indices _ generateMessage wcfg _ _ _ Rec Hw eq_refl).
    unfold Lanes.attempted in P.
    assert (Ei : WriteTest.inflight ws = []).
    { destruct (WriteTest.inflight ws) as [|c l] eqn:Ei; auto.
      destruct (WriteInv.settle_enabled _ generateMessage wcfg ws c WriteTest.Returned
                  0 0 0) as [s1 Hs1]; [rewrite Ei; now left|].
      rewrite Stuck in Hs1. discriminate. }
    simpl in P. rewrite Ei, app_nil_r in P. exact P.
  - split; [eapply ReadInv.read_run_bounded; eauto|].
    split.
    { pose proof (ReadInv.read_wf_run _ _ _ HQ HD _ _ _ _ Hr) as W.
      pose proof (Lanes.wf_index _ _ W) as N.
      unfold Lanes.tasks, Lanes.live in N. rewrite <- app_assoc, map_app in N.
      apply NoDup_app_remove_l in N. unfold Lanes.attempted.
      eapply Permutation_NoDup; [|exact N].
      apply Permutation_map, Permutation_app_comm. }
    split; [intros N; eapply ReadInv.read_pending_progress; eauto|].
    split.
    { destruct (ReadInv.read_run_completes _ _ _ HQ HD (ReadTest.Returned []) rnow _ _ _
                  Hr (Nat.le_refl _)) as (es' & s' & r & H' & R' & _).
      eauto. }
    intros r R.
    destruct (ReadInv.read_fulfilled_final _ _ _ HQ HD _ _ _ _ Hr R)
      as (_ & Stuck & _ & P & Sum & Cnt & now & pre & Ef & _).
    assert (Eq : ReadTest.totalQueries r = ReadTest.completedQueries rs)
      by (rewrite Ef; reflexivity).
    split; [exact P|]. split; [now rewrite Eq|]. split; [now rewrite Eq|].
    split; [|exact Stuck].
    intros Rec.
    assert (Eb : ReadTest.queries r = ReadTest.results rs) by (rewrite Ef; reflexivity).
    rewrite Eb, (ReadInv.read_recorded_indices _ getRandomUserId rcfg _ _ _ Rec Hr eq_refl).
    unfold Lanes.attempted in P.
    assert (Ei : ReadTest.inflight rs = []).
    { destruct (ReadTest.inflight rs) as [|c l] eqn:Ei; auto.
      destruct (ReadInv.read_settle_enabled Message getRandomUserId rcfg rs c
                  (ReadTest.Returned []) 0 0 0) as [s1 Hs1]; [rewrite Ei; now left|].
      rewrite Stuck in Hs1. discriminate. }
    simpl in P. rewrite Ei, app_nil_r in P. exact P.
Qed.

Lemma C1_every_index_attempted_once_witness :
  1 <= WriteTest.totalBatches Scenario.write_config /\
  1 <= WriteTest.Cfg.concurrency Scenario.write_config /\
  1 <= ReadTest.Cfg.totalQueries Scenario.read_config /\
  1 <= ReadTest.Cfg.concurrency Scenario.read_config /\
  WriteTest.run Scenario.generateMessage Scenario.write_config
    (WriteTest.init Scenario.write_config WriteTest.new_results 100)
    Scenario.write_events = Some Scenario.write_final /\
  ReadTest.run Scenario.getRandomUserId Scenario.read_config
    (ReadTest.init Scenario.read_config ReadTest.new_results 0)
    Scenario.read_events = Some Scenario.read_final /\
  Z.of_nat (List.length Scenario.write_events)
  <= 2 * WriteTest.totalBatches Scenario.write_config /\
  Z.of_nat (List.length Scenario.read_events)
  <= 2 * ReadTest.Cfg.totalQueries Scenario.read_config.
Proof.
  assert (H1 : 1 <= WriteTest.totalBatches Scenario.write_config) by (vm_compute; discriminate).
  assert (H2 : 1 <= WriteTest.Cfg.concurrency Scenario.write_config) by (vm_compute; discriminate).
  assert (H3 : 1 <= ReadTest.Cfg.totalQueries Scenario.read_config) by (vm_compute; discriminate).
  assert (H4 : 1 <= ReadTest.Cfg.concurrency Scenario.read_config) by (vm_compute; discriminate).
  assert (H5 : WriteTest.run Scenario.generateMessage Scenario.write_config
                 (WriteTest.init Scenario.write_config WriteTest.new_results 100)
                 Scenario.write_events = Some Scenario.write_final) by reflexivity.
  assert (H6 : ReadTest.run Scenario.getRandomUserId Scenario.read_config
                 (ReadTest.init Scenario.read_config ReadTest.new_results 0)
                 Scenario.read_events = Some Scenario.read_final) by reflexivity.
  repeat (split; [assumption|]).
  destruct (C1_every_index_attempted_once unit Scenario.generateMessage
              Scenario.getRandomUserId Scenario.write_config Scenario.read_config
              100 0 Scenario.write_events Scenario.write_final
              Scenario.read_events Scenario.read_final H1 H2 H3 H4 H5 H6)
    as [[Hw _] [Hr _]].
  split; assumption.
Defined.



(** C8. At every state of every run with at least one operation and one
    worker (whatever the instance held before): [activeTasks] counts the
    calls suspended on the backend and never exceeds
    [min(concurrency, total)]; no lane has two calls queued or suspended at
    once; and a call for an index beyond the first of its lane exists only
    once the lane's previous index, [concurrency] below, has run to its
    end, which, unless a backend call rejected with null or undefined,
    means that its record has been pushed. *)
Theorem C8_bounded_in_flight :
  forall (Message : Type) (generateMessage : Z -> nat -> Message)
         (getRandomUserId : Z -> string)
         (wcfg : WriteTest.config) (rcfg : ReadTest.config)
         (wr0 : WriteTest.Results) (rr0 : ReadTest.Results) (wnow rnow : Z)
         (wes : list WriteTest.event) (ws : WriteTest.state Message)
         (res : list (ReadTest.event Message)) (rs : ReadTest.state),
    1 <= WriteTest.totalBatches wcfg ->
    1 <= WriteTest.Cfg.concurrency wcfg ->
    1 <= ReadTest.Cfg.totalQueries rcfg ->
    1 <= ReadTest.Cfg.concurrency rcfg ->
    WriteTest.run generateMessage wcfg (WriteTest.init wcfg wr0 wnow) wes = Some ws ->
    ReadTest.run getRandomUserId rcfg (ReadTest.init rcfg rr0 rnow) res = Some rs ->
    (WriteTest.activeTasks ws = Z.of_nat (List.length (WriteTest.inflight ws)) /\
     WriteTest.activeTasks ws
     <= Z.min (WriteTest.Cfg.concurrency wcfg) (WriteTest.totalBatches wcfg) /\
     NoDup (map Lanes.lane (WriteTest.immediates ws ++
                            map WriteTest.task (WriteTest.inflight ws))) /\
     (forall t, In t (WriteTest.immediates ws ++
                      map WriteTest.task (WriteTest.inflight ws)) ->
        Lanes.index t = Lanes.lane t \/
        In (Lanes.mkTask (Lanes.lane t)
                         (Lanes.index t - WriteTest.Cfg.concurrency wcfg))
           (WriteTest.finished ws)) /\
     (forallb WriteTest.recorded wes = true ->
      forall t, In t (WriteTest.immediates ws ++
                      map WriteTest.task (WriteTest.inflight ws)) ->
        Lanes.index t = Lanes.lane t \/
        In (Lanes.index t - WriteTest.Cfg.concurrency wcfg)
           (map WriteTest.batchIndex (WriteTest.results ws))))
    /\
    (ReadTest.activeTasks rs = Z.of_nat (List.length (ReadTest.inflight rs)) /\
     ReadTest.activeTasks rs
     <= Z.min (ReadTest.Cfg.concurrency rcfg) (ReadTest.Cfg.totalQueries rcfg) /\
     NoDup (map Lanes.lane (ReadTest.immediates rs ++
                            map ReadTest.task (ReadTest.inflight rs))) /\
     (forall t, In t (ReadTest.immediates rs ++
                      map ReadTest.task (ReadTest.inflight rs)) ->
        Lanes.index t = Lanes.lane t \/
        In (Lanes.mkTask (Lanes.lane t)
                         (Lanes.index t - ReadTest.Cfg.concurrency rcfg))
           (ReadTest.finished rs)) /\
     (forallb ReadTest.recorded res = true ->
      forall t, In t (ReadTest.immediates rs ++
                      map ReadTest.task (ReadTest.inflight rs)) ->
        Lanes.index t = Lanes.lane t \/
        In (Lanes.index t - ReadTest.Cfg.concurrency rcfg)
           (map ReadTest.queryIndex (ReadTest.results rs)))).
Proof.
  intros Message generateMessage getRandomUserId wcfg rcfg wr0 rr0 wnow rnow
         wes ws res rs HT HC HQ HD Hw Hr.
  split.
  - pose proof (WriteInv.wf_run _ _ _ HT HC _ _ _ _ Hw) as W.
    pose proof (Lanes.wf_active _ _ W) as A.
    pose proof (Lanes.wf_bound _ _ W) as B.
    unfold Lanes.live in B. simpl in A, B. rewrite length_app, length_map in *.
    split; [exact A|]. split; [unfold Lanes.lanes in B; simpl in B; lia|].
    split; [apply (Lanes.wf_lanes _ _ W)|].
    assert (Hp : forall t, In t (WriteTest.immediates ws ++
                                 map WriteTest.task (WriteTest.inflight ws)) ->
                 Lanes.index t = Lanes.lane t \/
                 In (Lanes.mkTask (Lanes.lane t)
                                  (Lanes.index t - WriteTest.Cfg.concurrency wcfg))
                    (WriteTest.finished ws)).
    { intros t Ht. apply (Lanes.wf_pred _ _ W). unfold Lanes.tasks.
      apply in_or_app. now left. }
    split; [exact Hp|].
    intros Rec t Ht. destruct (Hp t Ht) as [E|Hin]; [now left|right].
    rewrite (WriteInv.recorded_indices _ generateMessage wcfg _ _ _ Rec Hw eq_refl).
    apply in_map_iff. eexists. split; [|exact Hin]. reflexivity.
  - pose proof (ReadInv.read_wf_run _ _ _ HQ HD _ _ _ _ Hr) as W.
    pose proof (Lanes.wf_active _ _ W) as A.
    pose proof (Lanes.wf_bound _ _ W) as B.
    unfold Lanes.live in B. simpl in A, B. rewrite length_app, length_map in *.
    split; [exact A|]. split; [unfold Lanes.lanes in B; simpl in B; lia|].
    split; [apply (Lanes.wf_lanes _ _ W)|].
    assert (Hp : forall t, In t (ReadTest.immediates rs ++
                                 map ReadTest.task (ReadTest.inflight rs)) ->
                 Lanes.index t = Lanes.lane t \/
                 In (Lanes.mkTask (Lanes.lane t)
                                  (Lanes.index t - ReadTest.Cfg.concurrency rcfg))
                    (ReadTest.finished rs)).
    { intros t Ht. apply (Lanes.wf_pred _ _ W). unfold Lanes.tasks.
      apply in_or_app. now left. }
    split; [exact Hp|].
    intros Rec t Ht. destruct (Hp t Ht) as [E|Hin]; [now left|right].
    rewrite (ReadInv.read_recorded_indices _ getRandomUserId rcfg _ _ _ Rec Hr eq_refl).
    apply in_map_iff. eexists. split; [|exact Hin]. reflexivity.
Qed.

Lemma C8_bounded_in_flight_witness :
  1 <= WriteTest.totalBatches Scenario.write_config /\
  1 <= WriteTest.Cfg.concurrency Scenario.write_config /\
  1 <= ReadTest.Cfg.totalQueries Scenario.read_config /\
  1 <= ReadTest.Cfg.concurrency Scenario.read_config /\
  WriteTest.run Scenario.generateMessage Scenario.write_config
    (WriteTest.init Scenario.write_config WriteTest.new_results 100)
    (firstn 2 Scenario.write_events) = Some Scenario.write_midway /\
  ReadTest.run Scenario.getRandomUserId Scenario.read_config
    (ReadTest.init Scenario.read_config ReadTest.new_results 0)
    (firstn 2 Scenario.read_events) = Some Scenario.read_midway /\
  WriteTest.activeTasks Scenario.write_midway
  <= Z.min (WriteTest.Cfg.concurrency Scenario.write_config)
           (WriteTest.totalBatches Scenario.write_config) /\
  ReadTest.activeTasks Scenario.read_midway
  <= Z.min (ReadTest.Cfg.concurrency Scenario.read_config)
           (ReadTest.Cfg.totalQueries Scenario.read_config).
Proof.
  assert (H1 : 1 <= WriteTest.totalBatches Scenario.write_config) by (vm_compute; discriminate).
  assert (H2 : 1 <= WriteTest.Cfg.concurrency Scenario.write_config) by (vm_compute; discriminate).
  assert (H3 : 1 <= ReadTest.Cfg.totalQueries Scenario.read_config) by (vm_compute; discriminate).
  assert (H4 : 1 <= ReadTest.Cfg.concurrency Scenario.read_config) by (vm_compute; discriminate).
  assert (H5 : WriteTest.run Scenario.generateMessage Scenario.write_config
                 (WriteTest.init Scenario.write_config WriteTest.new_results 100)
                 (firstn 2 Scenario.write_events) = Some Scenario.write_midway)
    by reflexivity.
  assert (H6 : ReadTest.run Scenario.getRandomUserId Scenario.read_config
                 (ReadTest.init Scenario.read_config ReadTest.new_results 0)
                 (firstn 2 Scenario.read_events) = Some Scenario.read_midway)
    by reflexivity.
  repeat (split; [assumption|]).
  destruct (C8_bounded_in_flight unit Scenario.generateMessage
              Scenario.getRandomUserId Scenario.write_config Scenario.read_config
              WriteTest.new_results ReadTest.new_results
              100 0 _ Scenario.write_midway _ Scenario.read_midway
              H1 H2 H3 H4 H5 H6)
    as [(_ & Hw & _) (_ & Hr & _)].
  split; assumption.
Defined.

(* ================================================================== *)
(** * Runs with nothing to do, the executors, the rate *)
(* ================================================================== *)

(** ** A run with nothing to do *)

Lemma no_lanes (cfg : Lanes.config) :
  Lanes.total cfg <= 0 -> Lanes.initial_tasks cfg = [].
Proof.
  intros H. unfold Lanes.initial_tasks.
  replace (Z.to_nat (Z.min (Lanes.concurrency cfg) (Lanes.total cfg))) with 0%nat by lia.
  reflexivity.
Qed.

Lemma totalBatches_nonpos (cfg : WriteTest.config) :
  WriteTest.Cfg.totalRecords cfg <= 0 -> 1 <= WriteTest.Cfg.batchSize cfg ->
  WriteTest.totalBatches cfg <= 0.
Proof.
  intros Hr Hb. unfold WriteTest.totalBatches.
  pose proof (JsNumFacts.ceil_div_spec (WriteTest.Cfg.totalRecords cfg)
                (WriteTest.Cfg.batchSize cfg) ltac:(lia)). nia.
Qed.

Lemma write_idle {Message} (generateMessage : Z -> nat -> Message) cfg r0 now es s :
  WriteTest.totalBatches cfg <= 0 ->
  WriteTest.run generateMessage cfg (WriteTest.init cfg r0 now) es = Some s ->
  es = [] /\ s = WriteTest.init cfg r0 now.
Proof.
  intros HT H. destruct es as [|e es]; simpl in H.
  - inversion H. auto.
  - exfalso. destruct e; simpl in H.
    + rewrite no_lanes in H by exact HT. discriminate.
    + discriminate.
Qed.

Lemma read_idle {Message} (getRandomUserId : Z -> string) cfg r0 now
    (es : list (ReadTest.event Message)) s :
  ReadTest.Cfg.totalQueries cfg <= 0 ->
  ReadTest.run getRandomUserId cfg (ReadTest.init cfg r0 now) es = Some s ->
  es = [] /\ s = ReadTest.init cfg r0 now.
Proof.
  intros HT H. destruct es as [|e es]; simpl in H.
  - inversion H. auto.
  - exfalso. destruct e; simpl in H.
    + rewrite no_lanes in H by exact HT. discriminate.
    + discriminate.
Qed.

(** C3 (as the code has it).  With nothing to do (a batch count
    [ceil(totalRecords / batchSize) <= 0] for the write runner,
    [totalQueries <= 0] for the read runner) the runner raises no error and
    returns no result: no callback is queued, no step can be taken, and the
    promise it returned stays pending. *)
Theorem C3_nothing_to_do_stays_pending :
  forall (Message : Type) (generateMessage : Z -> nat -> Message)
         (getRandomUserId : Z -> string)
         (wcfg : WriteTest.config) (rcfg : ReadTest.config)
         (wr0 : WriteTest.Results) (rr0 : ReadTest.Results) (wnow rnow : Z)
         (wes : list WriteTest.event) (ws : WriteTest.state Message)
         (res : list (ReadTest.event Message)) (rs : ReadTest.state),
    WriteTest.Cfg.batchSize wcfg <> 0 ->
    WriteTest.totalBatches wcfg <= 0 ->
    ReadTest.Cfg.totalQueries rcfg <= 0 ->
    WriteTest.run generateMessage wcfg (WriteTest.init wcfg wr0 wnow) wes = Some ws ->
    ReadTest.run getRandomUserId rcfg (ReadTest.init rcfg rr0 rnow) res = Some rs ->
    (wes = [] /\ ws = WriteTest.init wcfg wr0 wnow /\
     WriteTest.returned ws = Pending /\ WriteTest.result_of ws = None /\
     WriteTest.immediates ws = [] /\ WriteTest.results ws = [] /\
     forall e, WriteTest.step generateMessage wcfg ws e = None)
    /\
    (res = [] /\ rs = ReadTest.init rcfg rr0 rnow /\
     ReadTest.returned rs = Pending /\ ReadTest.result_of rs = None /\
     ReadTest.immediates rs = [] /\ ReadTest.results rs = [] /\
     forall e : ReadTest.event Message,
       ReadTest.step getRandomUserId rcfg rs e = None).
Proof.
  intros Message generateMessage getRandomUserId wcfg rcfg wr0 rr0 wnow rnow
         wes ws res rs Hb HT Hq Hw Hrd.
  destruct (write_idle _ _ _ _ _ _ HT Hw) as [-> ->].
  destruct (read_idle _ _ _ _ _ _ Hq Hrd) as [-> ->].
  split; (split; [reflexivity|]); repeat (split; [reflexivity|]).
  - split; [simpl; now apply no_lanes|]. split; [reflexivity|].
    intros e. destruct (WriteTest.step generateMessage wcfg _ e) as [s'|] eqn:E; auto.
    exfalso.
    assert (H : WriteTest.run generateMessage wcfg (WriteTest.init wcfg wr0 wnow) [e]
                = Some s') by (simpl; now rewrite E).
    apply write_idle in H; auto. destruct H; discriminate.
  - split; [simpl; now apply no_lanes|]. split; [reflexivity|].
    intros e. destruct (ReadTest.step getRandomUserId rcfg _ e) as [s'|] eqn:E; auto.
    exfalso.
    assert (H : ReadTest.run getRandomUserId rcfg (ReadTest.init rcfg rr0 rnow) [e]
                = Some s') by (simpl; now rewrite E).
    apply read_idle in H; auto. destruct H; discriminate.
Qed.

Lemma C3_nothing_to_do_stays_pending_witness :
  WriteTest.Cfg.batchSize Scenario.empty_write_config <> 0 /\
  WriteTest.totalBatches Scenario.empty_write_config <= 0 /\
  ReadTest.Cfg.totalQueries Scenario.empty_read_config <= 0 /\
  WriteTest.returned
    (WriteTest.init (Message := unit) Scenario.empty_write_config WriteTest.new_results 0)
  = Pending /\
  ReadTest.returned (ReadTest.init Scenario.empty_read_config ReadTest.new_results 0)
  = Pending.
Proof.
  assert (H1 : WriteTest.Cfg.batchSize Scenario.empty_write_config <> 0)
    by (vm_compute; discriminate).
  assert (H2 : WriteTest.totalBatches Scenario.empty_write_config <= 0)
    by (vm_compute; discriminate).
  assert (H3 : ReadTest.Cfg.totalQueries Scenario.empty_read_config <= 0)
    by (vm_compute; discriminate).
  repeat (split; [assumption|]).
  destruct (C3_nothing_to_do_stays_pending unit Scenario.generateMessage
              Scenario.getRandomUserId Scenario.empty_write_config
              Scenario.empty_read_config WriteTest.new_results ReadTest.new_results
              0 0 [] _ [] _ H1 H2 H3 eq_refl eq_refl)
    as [(_ & _ & Hw & _) (_ & _ & Hr & _)].
  split; assumption.
Defined.

(** C3, as stated, fails: with [totalRecords = 0] the write runner's promise
    is never settled, so no configuration error ever reaches the caller and
    the call never terminates. *)
Lemma C3_counterexample :
  WriteTest.totalBatches Scenario.empty_write_config <= 0 /\
  ~ (exists es s,
       WriteTest.run Scenario.generateMessage Scenario.empty_write_config
         (WriteTest.init Scenario.empty_write_config WriteTest.new_results 0) es
       = Some s /\
       WriteTest.returned s <> Pending).
Proof.
  split; [vm_compute; discriminate|].
  intros (es & s & H & N).
  apply write_idle in H; [|vm_compute; discriminate].
  destruct H as [_ ->]. apply N. reflexivity.
Qed.

(** ** The executors *)

(** Inserting one by one stops at the first record the database rejects. *)
Lemma insertEach_app {Message DB}
    (insertMessage : Message -> DB -> DB * WriteTest.outcome)
    (done rest : list Message) : forall db,
  WriteTest.insertEach insertMessage (done ++ rest) db
  = match WriteTest.insertEach insertMessage done db with
    | (db1, WriteTest.Returned) => WriteTest.insertEach insertMessage rest db1
    | (db1, WriteTest.Raised e) => (db1, WriteTest.Raised e)
    end.
Proof.
  induction done as [|record done IH]; intros db; simpl; [reflexivity|].
  destruct (insertMessage record db) as [db1 [|e]]; auto.
Qed.

Lemma insertEach_first_failure {Message DB}
    (insertMessage : Message -> DB -> DB * WriteTest.outcome)
    (done rest : list Message) record db db1 db2 e :
  WriteTest.insertEach insertMessage done db = (db1, WriteTest.Returned) ->
  insertMessage record db1 = (db2, WriteTest.Raised e) ->
  WriteTest.insertEach insertMessage (done ++ record :: rest) db
  = (db2, WriteTest.Raised e).
Proof.
  intros Hd Hr. rewrite insertEach_app, Hd. simpl. now rewrite Hr.
Qed.

(** C2 (as the code has it).  When the backend work of an operation fails
    with a value other than null or undefined, the executor returns a record
    and raises nothing; the record carries the index, [success = false], the
    thrown value's message as [error] and [endTime - startTime] as latency.
    Its [recordCount] is 0 in the read executor, and the length of the batch
    that was attempted in the write executor. *)
Theorem C2_failure_becomes_a_record :
  forall (Message DB : Type)
         (insertBatch : list Message -> DB -> DB * WriteTest.outcome)
         (insertMessage : Message -> DB -> DB * WriteTest.outcome)
         (getMessagesByUser : string -> Z -> DB -> DB * ReadTest.outcome Message)
         (wcfg : WriteTest.config) (rcfg : ReadTest.config)
         (batchData : list Message) (userId : string)
         (index startTime endTime stamp : Z) (db db' : DB) (e : thrown),
    e <> Nullish ->
    WriteTest.backend insertBatch insertMessage wcfg batchData db
    = (db', WriteTest.Raised e) ->
    getMessagesByUser userId (ReadTest.Cfg.readLimit rcfg) db
    = (db', ReadTest.Raised e) ->
    (exists b,
        WriteTest.executeBatch insertBatch insertMessage wcfg batchData index
                               startTime endTime stamp db = (db', inr b) /\
        WriteTest.batchIndex b = index /\
        WriteTest.success b = false /\
        message_of e = inr (WriteTest.error b) /\
        WriteTest.latency b = endTime - startTime /\
        WriteTest.recordCount b = Z.of_nat (List.length batchData))
    /\
    (exists q,
        ReadTest.executeQuery getMessagesByUser rcfg userId index
                              startTime endTime stamp db = (db', inr q) /\
        ReadTest.queryIndex q = index /\
        ReadTest.success q = false /\
        message_of e = inr (ReadTest.error q) /\
        ReadTest.latency q = endTime - startTime /\
        ReadTest.recordCount q = 0).
Proof.
  intros Message DB insertBatch insertMessage getMessagesByUser wcfg rcfg
         batchData userId index startTime endTime stamp db db' e Hn Hw Hr.
  split.
  - unfold WriteTest.executeBatch. rewrite Hw.
    destruct e as [m| |]; [| |congruence]; simpl; eexists; repeat split.
  - unfold ReadTest.executeQuery. rewrite Hr.
    destruct e as [m| |]; [| |congruence]; simpl; eexists; repeat split.
Qed.

Lemma C2_failure_becomes_a_record_witness :
  ErrorObject "deadlock detected" <> Nullish /\
  WriteTest.backend Scenario.rejecting_insertBatch Scenario.insertMessage
                    Scenario.write_config [tt; tt] tt
  = (tt, WriteTest.Raised (ErrorObject "deadlock detected")) /\
  Scenario.rejecting_getMessagesByUser "user_7"
    (ReadTest.Cfg.readLimit Scenario.read_config) tt
  = (tt, ReadTest.Raised (ErrorObject "deadlock detected")) /\
  (exists b,
      WriteTest.executeBatch Scenario.rejecting_insertBatch Scenario.insertMessage
                             Scenario.write_config [tt; tt] 4 100 140 141 tt
      = (tt, inr b) /\
      WriteTest.success b = false) /\
  (exists q,
      ReadTest.executeQuery Scenario.rejecting_getMessagesByUser Scenario.read_config
                            "user_7" 4 100 140 141 tt
      = (tt, inr q) /\
      ReadTest.success q = false).
Proof.
  assert (H1 : ErrorObject "deadlock detected" <> Nullish) by discriminate.
  assert (H2 : WriteTest.backend Scenario.rejecting_insertBatch Scenario.insertMessage
                 Scenario.write_config [tt; tt] tt
               = (tt, WriteTest.Raised (ErrorObject "deadlock detected")))
    by reflexivity.
  assert (H3 : Scenario.rejecting_getMessagesByUser "user_7"
                 (ReadTest.Cfg.readLimit Scenario.read_config) tt
               = (tt, ReadTest.Raised (ErrorObject "deadlock detected")))
    by reflexivity.
  repeat (split; [assumption|]).
  destruct (C2_failure_becomes_a_record unit unit Scenario.rejecting_insertBatch
              Scenario.insertMessage Scenario.rejecting_getMessagesByUser
              Scenario.write_config Scenario.read_config [tt; tt] "user_7"
              4 100 140 141 tt tt _ H1 H2 H3)
    as [(b & Hb & _ & Sb & _) (q & Hq & _ & Sq & _)].
  split; [exists b | exists q]; split; assumption.
Defined.

(** C2, as stated, fails twice.  The write executor's failure record counts
    the two records of the batch it attempted, not 0; and when the backend
    rejects with [null] the executor's own [catch] block throws, so an
    exception leaves the executor instead of a record. *)
Lemma C2_counterexample :
  (exists b,
      WriteTest.executeBatch Scenario.rejecting_insertBatch Scenario.insertMessage
                             Scenario.write_config [tt; tt] 4 100 140 141 tt
      = (tt, inr b) /\
      WriteTest.success b = false /\
      WriteTest.recordCount b = 2 /\
      WriteTest.recordCount b <> 0)
  /\
  WriteTest.executeBatch Scenario.null_insertBatch Scenario.insertMessage
                         Scenario.write_config [tt; tt] 4 100 140 141 tt
  = (tt, inl TypeError).
Proof.
  split; [|reflexivity].
  eexists. split; [reflexivity|]. simpl. repeat split. discriminate.
Qed.

(** ** The rate *)



(** What JavaScript makes of the rate when no time has elapsed. *)
Lemma rate_undefined (a : Z) :
  JsNum.mul (JsNum.div a 0) 1000 =
  if 0 <? a then JsNum.PosInf else if a <? 0 then JsNum.NegInf else JsNum.NaN.
Proof.
  unfold JsNum.div. cbn [Z.eqb].
  destruct (0 <? a); [reflexivity|]. destruct (a <? 0); reflexivity.
Qed.

(** The rate fields of a fulfilled run on a fresh instance. *)
Lemma write_rate {Message} (generateMessage : Z -> nat -> Message) cfg now0 es s r :
  1 <= WriteTest.totalBatches cfg -> 1 <= WriteTest.Cfg.concurrency cfg ->
  WriteTest.run generateMessage cfg (WriteTest.init cfg WriteTest.new_results now0) es
  = Some s ->
  WriteTest.result_of s = Some r ->
  WriteTest.tps r
  = JsNum.mul (JsNum.div (WriteTest.totalRecords r) (WriteTest.totalTime r)) 1000 /\
  WriteTest.totalRecords r
  = sum_Z (map WriteTest.recordCount (filter WriteTest.success (WriteTest.batches r))) /\
  WriteTest.batches r = WriteTest.results s.
Proof.
  intros HT HC H R.
  destruct (WriteInv.fulfilled_final _ _ _ HT HC _ _ _ _ H R)
    as (Er & _ & _ & _ & _ & _ & now & pre & Ef & _).
  pose proof (WriteInv.accounted_run _ generateMessage cfg WriteTest.new_results now0 es s
                ltac:(discriminate) H) as A.
  pose proof (WriteTest.ac_records _ _ _ _ A) as Rec.
  rewrite <- Er in Rec.
  change (WriteTest.totalRecords WriteTest.new_results) with 0 in Rec.
  assert (Eb : WriteTest.batches r = WriteTest.results s) by (rewrite Ef; reflexivity).
  split; [rewrite Ef; reflexivity|].
  split; [rewrite Eb; lia|].
  exact Eb.
Qed.





(* ================================================================== *)
(** * The reporter *)
(* ================================================================== *)

(** ** Percentiles *)

Module ReporterFacts.
Import Reporter.

Lemma sort_sorted (l : list Z) : StronglySorted Z.le (ZSort.sort l).
Proof.
  assert (T : Relations_1.Transitive (fun x y : Z => is_true (ZOrder.leb x y))).
  { intros x y z Hxy Hyz. unfold ZOrder.leb, is_true in *.
    rewrite Z.leb_le in *. lia. }
  pose proof (ZSort.StronglySorted_sort l T) as S.
  induction S as [|a l' S IH F]; constructor; auto.
  eapply Forall_impl; [|exact F]. intros b Hb. now apply Z.leb_le.
Qed.

Lemma sort_length (l : list Z) : List.length (ZSort.sort l) = List.length l.
Proof. symmetry. apply Permutation_length, ZSort.Permuted_sort. Qed.

Lemma rank_bounds (n pct : Z) :
  1 <= n -> 0 <= pct < 100 -> 0 <= rank n pct <= n - 1.
Proof.
  intros Hn Hp. unfold rank. split.
  - apply Z.div_pos; nia.
  - assert (n * pct / 100 < n); [|lia].
    apply Z.div_lt_upper_bound; nia.
Qed.

Lemma at_index_nth (l : list Z) (k : Z) :
  0 <= k < Z.of_nat (List.length l) ->
  at_index l k = Some (nth (Z.to_nat k) l 0).
Proof.
  intros H. unfold at_index. destruct (Z.ltb_spec k 0); [lia|].
  apply nth_error_nth'. lia.
Qed.

Lemma spec_percentile_rank (sorted : list Z) (pct : Z) :
  sorted <> [] -> 0 <= pct < 100 ->
  at_index sorted (rank (Z.of_nat (List.length sorted)) pct)
  = Some (Spec.percentile sorted pct).
Proof.
  intros Hn Hp.
  assert (L : 1 <= Z.of_nat (List.length sorted))
    by (destruct sorted; [congruence | cbn [List.length]; lia]).
  pose proof (rank_bounds _ _ L Hp) as B.
  rewrite at_index_nth by lia.
  unfold Spec.percentile, Spec.clamped_index.
  destruct (Z.eqb_spec (Z.of_nat (List.length sorted)) 0); [lia|].
  do 2 f_equal. lia.
Qed.
End ReporterFacts.

(** On doubles the three ranks are the exact ones, for every length up to
    1000. *)
Lemma rank_on_doubles :
  forall n, In n (map Z.of_nat (seq 0 1001)) -> Binary64.agrees n = true.
Proof.
  apply forallb_forall. vm_compute. reflexivity.
Qed.

(** C5 (as the code has it).  For a non-empty list of latencies
    [generateLatencyAnalysis] sorts it ascending and reports, for p = 50, 95
    and 99, the element at index [floor(n * p / 100)]; that index already
    lies in [0, n-1], so clamping changes nothing, and the three values are
    the ones the specification's formula gives.  The latencies are those of
    the successful records only.  The sorted latencies [10,20,30,40,50] give
    p50 = 30 and p99 = 50.  For an empty list nothing is computed. *)
Theorem C5_index_percentiles :
  forall latencies : list Z,
    latencies <> [] ->
    Permutation latencies (Reporter.ZSort.sort latencies) /\
    StronglySorted Z.le (Reporter.ZSort.sort latencies) /\
    (forall pct, 0 <= pct < 100 ->
       0 <= Reporter.rank (Z.of_nat (List.length latencies)) pct
         <= Z.of_nat (List.length latencies) - 1 /\
       Spec.clamped_index (Z.of_nat (List.length latencies)) pct
       = Reporter.rank (Z.of_nat (List.length latencies)) pct) /\
    Reporter.percentilesOf latencies
    = Some (Reporter.mkPercentiles
              (Some (Spec.percentile (Reporter.ZSort.sort latencies) 50))
              (Some (Spec.percentile (Reporter.ZSort.sort latencies) 95))
              (Some (Spec.percentile (Reporter.ZSort.sort latencies) 99))) /\
    (forall r, Reporter.writePercentiles r
               = Reporter.percentilesOf
                   (map WriteTest.latency
                        (filter WriteTest.success (WriteTest.batches r)))) /\
    (forall r, Reporter.readPercentiles r
               = Reporter.percentilesOf
                   (map ReadTest.latency
                        (filter ReadTest.success (ReadTest.queries r)))) /\
    Reporter.percentilesOf [10; 20; 30; 40; 50]
    = Some (Reporter.mkPercentiles (Some 30) (Some 50) (Some 50)) /\
    Reporter.rank 5 50 = 2 /\ Reporter.rank 5 99 = 4 /\
    Reporter.percentilesOf [] = None.
Proof.
  intros latencies Hne.
  assert (L : 1 <= Z.of_nat (List.length latencies))
    by (destruct latencies; [congruence | cbn [List.length]; lia]).
  split; [apply Reporter.ZSort.Permuted_sort|].
  split; [apply ReporterFacts.sort_sorted|].
  split.
  { intros pct Hp. pose proof (ReporterFacts.rank_bounds _ _ L Hp) as B.
    split; [exact B|]. unfold Spec.clamped_index. lia. }
  split.
  { unfold Reporter.percentilesOf.
    destruct (Z.ltb_spec 0 (Z.of_nat (List.length latencies))); [|lia].
    assert (Hs : Reporter.ZSort.sort latencies <> []).
    { intros E. pose proof (ReporterFacts.sort_length latencies) as El.
      rewrite E in El. simpl in El. lia. }
    rewrite !ReporterFacts.spec_percentile_rank by (auto; lia). reflexivity. }
  repeat split; reflexivity.
Qed.

Lemma C5_index_percentiles_witness :
  [40; 10; 50; 30; 20] <> [] /\
  Reporter.percentilesOf [40; 10; 50; 30; 20]
  = Some (Reporter.mkPercentiles
            (Some (Spec.percentile (Reporter.ZSort.sort [40; 10; 50; 30; 20]) 50))
            (Some (Spec.percentile (Reporter.ZSort.sort [40; 10; 50; 30; 20]) 95))
            (Some (Spec.percentile (Reporter.ZSort.sort [40; 10; 50; 30; 20]) 99))).
Proof.
  assert (H : [40; 10; 50; 30; 20] <> []) by discriminate.
  split; [assumption|].
  destruct (C5_index_percentiles [40; 10; 50; 30; 20] H) as (_ & _ & _ & E & _).
  exact E.
Defined.

(** C5, as stated, fails for [n = 0]: when no record succeeded the guard
    [latencies.length > 0] skips the computation, so no percentile is
    reported at all, where the specification's formula gives 0 three times.
    The all-failure write run is such a case. *)
Lemma C5_counterexample :
  Reporter.writeLatencies (WriteTest.this_results Scenario.failing_final) = [] /\
  Reporter.writePercentiles (WriteTest.this_results Scenario.failing_final) = None /\
  Spec.percentiles [] = (0, 0, 0) /\
  Reporter.percentilesOf []
  <> Some (Reporter.mkPercentiles (Some 0) (Some 0) (Some 0)).
Proof. repeat split; try reflexivity. discriminate. Qed.

(* ================================================================== *)
(** * All-failure runs and batch sizes *)
(* ================================================================== *)

(** ** Runs in which every backend call fails *)

Lemma failing_results {Message} (generateMessage : Z -> nat -> Message) cfg es :
  forall s s',
    forallb WriteTest.failing es = true ->
    WriteTest.run generateMessage cfg s es = Some s' ->
    Forall (fun b => WriteTest.success b = false) (WriteTest.results s) ->
    Forall (fun b => WriteTest.success b = false) (WriteTest.results s').
Proof.
  induction es as [|e es IH]; simpl; intros s s' Hf H Hs.
  - now inversion H; subst.
  - apply andb_prop in Hf as [He Hf].
    destruct (WriteTest.step generateMessage cfg s e) as [s1|] eqn:E; [|discriminate].
    apply (IH s1 s' Hf H).
    destruct e as [now|i o endTime stamp now].
    + apply WriteInv.step_immediate_inv in E as (t & q & _ & _ & _ & _ & -> & _).
      exact Hs.
    + apply WriteInv.step_settle_inv in E
        as (c & rest & c' & rs' & r' & _ & Ab & _ & _ & _ & _ & -> & _).
      unfold WriteTest.absorb in Ab.
      destruct (WriteTest.executeBatch_resume _ _ _ _ _ _) as [ex|b] eqn:Eb;
        injection Ab as _ <- _; auto.
      apply Forall_app. split; auto. constructor; auto.
      apply WriteInv.resume_record in Eb as (_ & _ & _ & _ & Sb).
      rewrite Sb. destruct o; [discriminate|reflexivity].
Qed.

Lemma filter_none {A} (f : A -> bool) (l : list A) :
  Forall (fun x => f x = false) l -> filter f l = [].
Proof.
  induction 1 as [|x l Hx _ IH]; simpl; [reflexivity|]. now rewrite Hx.
Qed.

Lemma rate_of_nothing (t : Z) :
  t <> 0 -> JsNum.mul (JsNum.div 0 t) 1000 = JsNum.of_Z 0.
Proof.
  intros H. unfold JsNum.div. destruct (Z.eqb_spec t 0); [contradiction|].
  reflexivity.
Qed.

(** C7.  On a fresh write test with at least one batch and one worker, a
    run in which every backend call fails is at most [2 * total] steps long,
    can always take a further failing step while its promise is pending, and
    can go on failing until the promise is fulfilled; the result then
    reports [errors = total], no successful batch, [totalRecords = 0],
    [avgLatency = 0], and the rate [0 / totalTime * 1000] of the time that
    elapsed, which is 0 when that time is not 0. *)
Theorem C7_all_failures_still_complete :
  forall (Message : Type) (generateMessage : Z -> nat -> Message)
         (cfg : WriteTest.config) (now0 : Z)
         (es : list WriteTest.event) (s : WriteTest.state Message),
    1 <= WriteTest.totalBatches cfg ->
    1 <= WriteTest.Cfg.concurrency cfg ->
    WriteTest.run generateMessage cfg
      (WriteTest.init cfg WriteTest.new_results now0) es = Some s ->
    forallb WriteTest.failing es = true ->
    Z.of_nat (List.length es) <= 2 * WriteTest.totalBatches cfg /\
    (WriteTest.result_of s = None ->
     exists e s', WriteTest.failing e = true /\
                  WriteTest.step generateMessage cfg s e = Some s') /\
    (exists es' s' r,
       forallb WriteTest.failing es' = true /\
       WriteTest.run generateMessage cfg s es' = Some s' /\
       WriteTest.result_of s' = Some r) /\
    (forall r, WriteTest.result_of s = Some r ->
       WriteTest.errors r = WriteTest.totalBatches cfg /\
       filter WriteTest.success (WriteTest.batches r) = [] /\
       WriteTest.totalRecords r = 0 /\
       WriteTest.avgLatency r = JsNum.of_Z 0 /\
       WriteTest.tps r = JsNum.mul (JsNum.div 0 (WriteTest.totalTime r)) 1000 /\
       (WriteTest.totalTime r <> 0 -> WriteTest.tps r = JsNum.of_Z 0)).
Proof.
  intros Message generateMessage cfg now0 es s HT HC H Hf.
  split; [eapply WriteInv.run_bounded; eauto|].
  split; [|split].
  - intros N.
    destruct (WriteInv.pending_live _ _ _ HT HC _ _ _ H N) as [Hq|Hi].
    + destruct (WriteInv.immediate_enabled _ generateMessage cfg s 0 Hq) as [s' Hs'].
      exists (WriteTest.Immediate 0), s'. split; [reflexivity|exact Hs'].
    + destruct (WriteTest.inflight s) as [|c l] eqn:Ei; [congruence|].
      destruct (WriteInv.settle_enabled _ generateMessage cfg s c
                  (WriteTest.Raised (ErrorObject "unavailable")) 0 0 0) as [s' Hs'];
        [rewrite Ei; now left|].
      eexists _, s'. split; [|exact Hs']. reflexivity.
  - destruct (WriteInv.run_completes _ _ _ HT HC
                (WriteTest.Raised (ErrorObject "unavailable")) now0 _ _ _ H
                (Nat.le_refl _)) as (es' & s' & r & H' & R' & Fa).
    exists es', s', r. split; [|split; assumption].
    apply forallb_forall. intros e He.
    rewrite Forall_forall in Fa. destruct (Fa e He) as [->|[i ->]]; reflexivity.
  - intros r R.
    destruct (WriteInv.fulfilled_final _ _ _ HT HC _ _ _ _ H R)
      as (Er & _ & _ & _ & Sum & Cnt & now & pre & Ef & Ea).
    destruct (write_rate _ _ _ _ _ _ HT HC H R) as (Etps & Erec & Eb).
    assert (Hs : Forall (fun b => WriteTest.success b = false) (WriteTest.results s))
      by (eapply failing_results; eauto; constructor).
    assert (En : filter WriteTest.success (WriteTest.batches r) = [])
      by (rewrite Eb; now apply filter_none).
    rewrite En in Cnt, Erec. cbn [List.length] in Cnt.
    cbn [map] in Erec. rewrite sum_Z_nil in Erec.
    split; [lia|]. split; [exact En|]. split; [exact Erec|].
    split.
    { rewrite Ef. unfold WriteTest.finalize. cbn [WriteTest.avgLatency].
      rewrite Eb in En. rewrite En. simpl. exact Ea. }
    rewrite Erec in Etps. split; [exact Etps|].
    intros Ht. rewrite Etps. now apply rate_of_nothing.
Qed.

Lemma C7_all_failures_still_complete_witness :
  1 <= WriteTest.totalBatches Scenario.failing_config /\
  1 <= WriteTest.Cfg.concurrency Scenario.failing_config /\
  WriteTest.run Scenario.generateMessage Scenario.failing_config
    (WriteTest.init Scenario.failing_config WriteTest.new_results 100)
    Scenario.failing_events = Some Scenario.failing_final /\
  forallb WriteTest.failing Scenario.failing_events = true /\
  WriteTest.errors (WriteTest.this_results Scenario.failing_final) = 5 /\
  WriteTest.avgLatency (WriteTest.this_results Scenario.failing_final) = JsNum.of_Z 0.
Proof.
  assert (H1 : 1 <= WriteTest.totalBatches Scenario.failing_config)
    by (vm_compute; discriminate).
  assert (H2 : 1 <= WriteTest.Cfg.concurrency Scenario.failing_config)
    by (vm_compute; discriminate).
  assert (H3 : WriteTest.run Scenario.generateMessage Scenario.failing_config
                 (WriteTest.init Scenario.failing_config WriteTest.new_results 100)
                 Scenario.failing_events = Some Scenario.failing_final) by reflexivity.
  assert (H4 : forallb WriteTest.failing Scenario.failing_events = true) by reflexivity.
  repeat (split; [assumption|]).
  destruct (C7_all_failures_still_complete unit Scenario.generateMessage
              Scenario.failing_config 100 Scenario.failing_events
              Scenario.failing_final H1 H2 H3 H4) as (_ & _ & _ & Hr).
  destruct (Hr (WriteTest.this_results Scenario.failing_final) eq_refl)
    as (He & _ & _ & Ha & _).
  split; [exact He | exact Ha].
Defined.

(** ** Batch sizes *)

Lemma sum_Z_perm (l l' : list Z) : Permutation l l' -> sum_Z l = sum_Z l'.
Proof.
  induction 1 as [|x l l' _ IH|x y l|l l' l'' _ IH1 _ IH2];
    rewrite ?sum_Z_cons; lia.
Qed.

Lemma indices_S (k : nat) :
  map Z.of_nat (seq 0 (S k)) = map Z.of_nat (seq 0 k) ++ [Z.of_nat k].
Proof. rewrite seq_S, map_app. reflexivity. Qed.

Section BatchSizes.
Variable cfg : WriteTest.config.
Hypothesis records_pos : 1 <= WriteTest.Cfg.totalRecords cfg.
Hypothesis batch_pos : 1 <= WriteTest.Cfg.batchSize cfg.

Local Set Default Proof Using "All".

Lemma totalBatches_spec :
  (WriteTest.totalBatches cfg - 1) * WriteTest.Cfg.batchSize cfg
  < WriteTest.Cfg.totalRecords cfg
  <= WriteTest.totalBatches cfg * WriteTest.Cfg.batchSize cfg.
Proof. apply JsNumFacts.ceil_div_spec. lia. Qed.

Lemma totalBatches_pos : 1 <= WriteTest.totalBatches cfg.
Proof. pose proof totalBatches_spec. nia. Qed.

Lemma full_batch i :
  0 <= i < WriteTest.totalBatches cfg - 1 ->
  WriteTest.actualBatchSize cfg i = WriteTest.Cfg.batchSize cfg.
Proof.
  intros Hi. pose proof totalBatches_spec. unfold WriteTest.actualBatchSize.
  apply Z.min_l. nia.
Qed.

Lemma last_batch :
  WriteTest.actualBatchSize cfg (WriteTest.totalBatches cfg - 1)
  = WriteTest.Cfg.totalRecords cfg
    - (WriteTest.totalBatches cfg - 1) * WriteTest.Cfg.batchSize cfg.
Proof.
  pose proof totalBatches_spec. unfold WriteTest.actualBatchSize.
  apply Z.min_r. nia.
Qed.

Lemma batch_bounds i :
  0 <= i < WriteTest.totalBatches cfg ->
  0 < WriteTest.actualBatchSize cfg i <= WriteTest.Cfg.batchSize cfg.
Proof.
  intros Hi. pose proof totalBatches_spec.
  destruct (Z.eq_dec i (WriteTest.totalBatches cfg - 1)) as [->|Hn].
  - rewrite last_batch. nia.
  - rewrite full_batch by lia. lia.
Qed.

Lemma full_batches_sum (k : nat) :
  Z.of_nat k <= WriteTest.totalBatches cfg - 1 ->
  sum_Z (map (WriteTest.actualBatchSize cfg) (map Z.of_nat (seq 0 k)))
  = Z.of_nat k * WriteTest.Cfg.batchSize cfg.
Proof.
  induction k as [|k IH]; intros Hk; [reflexivity|].
  rewrite indices_S, map_app, sum_Z_app, IH by lia.
  cbn [map]. rewrite sum_Z_cons, sum_Z_nil, full_batch by lia. lia.
Qed.

Lemma batches_sum :
  sum_Z (map (WriteTest.actualBatchSize cfg)
             (map Z.of_nat (seq 0 (Z.to_nat (WriteTest.totalBatches cfg)))))
  = WriteTest.Cfg.totalRecords cfg.
Proof.
  pose proof totalBatches_pos as P.
  replace (Z.to_nat (WriteTest.totalBatches cfg))
    with (S (Z.to_nat (WriteTest.totalBatches cfg - 1))) by lia.
  rewrite indices_S, map_app, sum_Z_app, full_batches_sum by lia.
  cbn [map]. rewrite sum_Z_cons, sum_Z_nil.
  rewrite Z2Nat.id by lia. rewrite last_batch. lia.
Qed.
End BatchSizes.

Lemma succeeding_results {Message} (generateMessage : Z -> nat -> Message) cfg es :
  forall s s',
    forallb WriteTest.succeeding es = true ->
    WriteTest.run generateMessage cfg s es = Some s' ->
    Forall (fun b => WriteTest.success b = true) (WriteTest.results s) ->
    Forall (fun b => WriteTest.success b = true) (WriteTest.results s').
Proof.
  induction es as [|e es IH]; simpl; intros s s' Hf H Hs.
  - now inversion H; subst.
  - apply andb_prop in Hf as [He Hf].
    destruct (WriteTest.step generateMessage cfg s e) as [s1|] eqn:E; [|discriminate].
    apply (IH s1 s' Hf H).
    destruct e as [now|i o endTime stamp now].
    + apply WriteInv.step_immediate_inv in E as (t & q & _ & _ & _ & _ & -> & _).
      exact Hs.
    + apply WriteInv.step_settle_inv in E
        as (c & rest & c' & rs' & r' & _ & Ab & _ & _ & _ & _ & -> & _).
      destruct o; [|discriminate]. unfold WriteTest.absorb in Ab. simpl in Ab.
      injection Ab as _ <- _. apply Forall_app. split; auto.
Qed.

(** The batches a complete run generated.  On a fresh write test, when no
    backend call rejected with null or undefined, the [recordCount] fields of
    the records of a fulfilled run add up to the configured [totalRecords];
    when every call returned, so does [this.results.totalRecords]. *)
Lemma run_generates_total {Message} (generateMessage : Z -> nat -> Message)
    (cfg : WriteTest.config) now0 es (s : WriteTest.state Message) r :
  1 <= WriteTest.Cfg.totalRecords cfg ->
  1 <= WriteTest.Cfg.batchSize cfg ->
  1 <= WriteTest.Cfg.concurrency cfg ->
  WriteTest.run generateMessage cfg (WriteTest.init cfg WriteTest.new_results now0) es
  = Some s ->
  WriteTest.result_of s = Some r ->
  forallb WriteTest.recorded es = true ->
  sum_Z (map WriteTest.recordCount (WriteTest.batches r))
  = WriteTest.Cfg.totalRecords cfg /\
  (forallb WriteTest.succeeding es = true ->
   WriteTest.totalRecords r = WriteTest.Cfg.totalRecords cfg).
Proof.
  intros Hr Hb HC H R Rec.
  pose proof (totalBatches_pos cfg Hr Hb) as HT.
  destruct (WriteInv.fulfilled_final _ _ _ HT HC _ _ _ _ H R)
    as (_ & Stuck & _ & P & _ & _ & now & pre & Ef & _).
  destruct (write_rate _ _ _ _ _ _ HT HC H R) as (_ & Erec & Eb).
  pose proof (WriteInv.shaped_run _ _ _ HT HC _ _ _ _ H) as Sh.
  pose proof (WriteInv.recorded_indices _ generateMessage cfg _ _ _ Rec H eq_refl) as Ei.
  assert (Hin : WriteTest.inflight s = []).
  { destruct (WriteTest.inflight s) as [|c l] eqn:E; auto.
    destruct (WriteInv.settle_enabled _ generateMessage cfg s c WriteTest.Returned
                0 0 0) as [s1 Hs1]; [rewrite E; now left|].
    rewrite Stuck in Hs1. discriminate. }
  unfold Lanes.attempted in P. simpl in P. rewrite Hin, app_nil_r, <- Ei in P.
  assert (Sum : sum_Z (map WriteTest.recordCount (WriteTest.results s))
                = WriteTest.Cfg.totalRecords cfg).
  { rewrite <- (batches_sum cfg Hr Hb).
    rewrite <- (sum_Z_perm _ _ (Permutation_map (WriteTest.actualBatchSize cfg) P)).
    rewrite map_map. f_equal. apply map_ext_in. intros b Hbin.
    destruct (WriteTest.sh_results _ _ _ Sh b Hbin) as [Hfin ->].
    assert (Hi : In (WriteTest.batchIndex b)
                    (map Z.of_nat (seq 0 (Z.to_nat (WriteTest.totalBatches cfg))))).
    { rewrite <- P. now apply in_map. }
    apply in_map_iff in Hi as (k & Ek & Hk). apply in_seq in Hk.
    pose proof (batch_bounds cfg Hr Hb (WriteTest.batchIndex b) ltac:(lia)). lia. }
  split; [now rewrite Eb|].
  intros Suc. rewrite Erec, Eb, <- Sum. do 2 f_equal.
  assert (All : Forall (fun b => WriteTest.success b = true) (WriteTest.results s))
    by (eapply succeeding_results; eauto; constructor).
  clear - All. induction All as [|b l Hb _ IH]; simpl; [reflexivity|].
  rewrite Hb. f_equal. exact IH.
Qed.

(** C9.  With at least one record and a batch size of at least one, the
    [totalBatches = ceil(totalRecords / batchSize)] batches have sizes
    [min(batchSize, totalRecords - batchIndex * batchSize)] that are positive
    and at most [batchSize], the sizes add up to [totalRecords], and so do
    the lengths of the batches [generateBatch] builds for them; in a
    fulfilled run of a fresh write test in which no call rejected with null
    or undefined, the record counts of the batches add up to [totalRecords]
    as well. *)
Theorem C9_batch_sizes_sum_to_total :
  forall (Message : Type) (generateMessage : Z -> nat -> Message)
         (cfg : WriteTest.config),
    1 <= WriteTest.Cfg.totalRecords cfg ->
    1 <= WriteTest.Cfg.batchSize cfg ->
    1 <= WriteTest.totalBatches cfg /\
    (WriteTest.totalBatches cfg - 1) * WriteTest.Cfg.batchSize cfg
    < WriteTest.Cfg.totalRecords cfg
    <= WriteTest.totalBatches cfg * WriteTest.Cfg.batchSize cfg /\
    (forall batchIndex, 0 <= batchIndex < WriteTest.totalBatches cfg ->
       0 < WriteTest.actualBatchSize cfg batchIndex <= WriteTest.Cfg.batchSize cfg) /\
    sum_Z (map (WriteTest.actualBatchSize cfg)
               (map Z.of_nat (seq 0 (Z.to_nat (WriteTest.totalBatches cfg)))))
    = WriteTest.Cfg.totalRecords cfg /\
    sum_Z (map (fun batchIndex =>
                  Z.of_nat (List.length
                    (DataGenerator.generateBatch Message (generateMessage batchIndex)
                       (WriteTest.actualBatchSize cfg batchIndex))))
               (map Z.of_nat (seq 0 (Z.to_nat (WriteTest.totalBatches cfg)))))
    = WriteTest.Cfg.totalRecords cfg /\
    (forall now0 es (s : WriteTest.state Message) r,
       1 <= WriteTest.Cfg.concurrency cfg ->
       WriteTest.run generateMessage cfg
         (WriteTest.init cfg WriteTest.new_results now0) es = Some s ->
       WriteTest.result_of s = Some r ->
       forallb WriteTest.recorded es = true ->
       sum_Z (map WriteTest.recordCount (WriteTest.batches r))
       = WriteTest.Cfg.totalRecords cfg).
Proof.
  intros Message generateMessage cfg Hr Hb.
  split; [now apply totalBatches_pos|].
  split; [now apply totalBatches_spec|].
  split; [intros i Hi; now apply batch_bounds|].
  split; [now apply batches_sum|].
  split.
  - rewrite <- (batches_sum cfg Hr Hb). f_equal.
    apply map_ext_in. intros i Hi.
    apply in_map_iff in Hi as (k & <- & Hk). apply in_seq in Hk.
    rewrite WriteInv.generateBatch_length.
    pose proof (batch_bounds cfg Hr Hb (Z.of_nat k) ltac:(lia)). lia.
  - intros now0 es s r HC H R Rec.
    now apply (run_generates_total generateMessage cfg now0 es s r Hr Hb HC H R Rec).
Qed.

Lemma C9_batch_sizes_sum_to_total_witness :
  1 <= WriteTest.Cfg.totalRecords Scenario.write_config /\
  1 <= WriteTest.Cfg.batchSize Scenario.write_config /\
  sum_Z (map (WriteTest.actualBatchSize Scenario.write_config)
             (map Z.of_nat
                  (seq 0 (Z.to_nat (WriteTest.totalBatches Scenario.write_config)))))
  = WriteTest.Cfg.totalRecords Scenario.write_config.
Proof.
  assert (H1 : 1 <= WriteTest.Cfg.totalRecords Scenario.write_config)
    by (vm_compute; discriminate).
  assert (H2 : 1 <= WriteTest.Cfg.batchSize Scenario.write_config)
    by (vm_compute; discriminate).
  repeat (split; [assumption|]).
  destruct (C9_batch_sizes_sum_to_total unit Scenario.generateMessage
              Scenario.write_config H1 H2) as (_ & _ & _ & Hs & _).
  exact Hs.
Defined.

(* ================================================================== *)
(** * Running twice on one instance *)
(* ================================================================== *)

(** ** A second run on the same instance *)

(** C10.  [this.results] is created by the constructor and a run starts
    from whatever it holds.  When a run is started on an instance whose
    first run was fulfilled with results [r1], then at every state of the
    second run the record total is [r1]'s plus the records of the second
    run's successful operations, the error count is at least [r1]'s plus
    the second run's failure records, and the latency extremes are no
    tighter than [r1]'s. *)
Theorem C10_results_accumulate_across_runs :
  forall (Message : Type) (generateMessage : Z -> nat -> Message)
         (getRandomUserId : Z -> string)
         (wcfg : WriteTest.config) (rcfg : ReadTest.config)
         (wnow1 wnow2 rnow1 rnow2 : Z)
         (wes1 wes2 : list WriteTest.event) (ws1 ws2 : WriteTest.state Message)
         (wr1 : WriteTest.Results)
         (res1 res2 : list (ReadTest.event Message)) (rs1 rs2 : ReadTest.state)
         (rr1 : ReadTest.Results),
    WriteTest.run generateMessage wcfg
      (WriteTest.init wcfg WriteTest.new_results wnow1) wes1 = Some ws1 ->
    WriteTest.result_of ws1 = Some wr1 ->
    WriteTest.run generateMessage wcfg (WriteTest.init wcfg wr1 wnow2) wes2 = Some ws2 ->
    ReadTest.run getRandomUserId rcfg
      (ReadTest.init rcfg ReadTest.new_results rnow1) res1 = Some rs1 ->
    ReadTest.result_of rs1 = Some rr1 ->
    ReadTest.run getRandomUserId rcfg (ReadTest.init rcfg rr1 rnow2) res2 = Some rs2 ->
    (WriteTest.this_results (WriteTest.init (Message := Message) wcfg wr1 wnow2) = wr1 /\
     WriteTest.totalRecords (WriteTest.this_results ws2)
     = WriteTest.totalRecords wr1
       + sum_Z (map WriteTest.recordCount
                    (filter WriteTest.success (WriteTest.results ws2))) /\
     WriteTest.errors wr1
     + Z.of_nat (List.length (filter (fun b => negb (WriteTest.success b))
                                     (WriteTest.results ws2)))
     <= WriteTest.errors (WriteTest.this_results ws2) /\
     WriteTest.maxLatency wr1 <= WriteTest.maxLatency (WriteTest.this_results ws2) /\
     JsNum.le (WriteTest.minLatency (WriteTest.this_results ws2))
              (WriteTest.minLatency wr1))
    /\
    (ReadTest.this_results (ReadTest.init rcfg rr1 rnow2) = rr1 /\
     ReadTest.totalRecordsRead (ReadTest.this_results rs2)
     = ReadTest.totalRecordsRead rr1
       + sum_Z (map ReadTest.recordCount
                    (filter ReadTest.success (ReadTest.results rs2))) /\
     ReadTest.errors rr1
     + Z.of_nat (List.length (filter (fun q => negb (ReadTest.success q))
                                     (ReadTest.results rs2)))
     <= ReadTest.errors (ReadTest.this_results rs2) /\
     ReadTest.maxLatency rr1 <= ReadTest.maxLatency (ReadTest.this_results rs2) /\
     JsNum.le (ReadTest.minLatency (ReadTest.this_results rs2))
              (ReadTest.minLatency rr1)).
Proof.
  intros Message generateMessage getRandomUserId wcfg rcfg wnow1 wnow2 rnow1 rnow2
         wes1 wes2 ws1 ws2 wr1 res1 res2 rs1 rs2 rr1 Hw1 Rw1 Hw2 Hr1 Rr1 Hr2.
  split.
  - pose proof (WriteInv.accounted_run _ generateMessage wcfg WriteTest.new_results
                  wnow1 wes1 ws1 ltac:(discriminate) Hw1) as A1.
    assert (E1 : wr1 = WriteTest.this_results ws1).
    { unfold WriteTest.result_of in Rw1. destruct (WriteTest.returned ws1);
        congruence. }
    assert (NN : WriteTest.minLatency wr1 <> JsNum.NaN).
    { rewrite E1. apply (JsNumFacts.le_not_nan _ _ (WriteTest.ac_min_old _ _ _ _ A1)). }
    destruct (WriteInv.accounted_run _ generateMessage wcfg wr1 wnow2 wes2 ws2 NN Hw2)
      as [Rec _ Err Max _ Min _].
    repeat split; auto.
  - pose proof (ReadInv.read_accounted_run Message getRandomUserId rcfg ReadTest.new_results
                  rnow1 res1 rs1 ltac:(discriminate) Hr1) as A1.
    assert (E1 : rr1 = ReadTest.this_results rs1).
    { unfold ReadTest.result_of in Rr1. destruct (ReadTest.returned rs1);
        congruence. }
    assert (NN : ReadTest.minLatency rr1 <> JsNum.NaN).
    { rewrite E1. apply (JsNumFacts.le_not_nan _ _ (ReadTest.ac_min_old _ _ _ _ A1)). }
    destruct (ReadInv.read_accounted_run Message getRandomUserId rcfg rr1 rnow2 res2 rs2 NN Hr2)
      as [Rec _ Err Max _ Min _].
    repeat split; auto.
Qed.

Lemma C10_results_accumulate_across_runs_witness :
  WriteTest.run Scenario.generateMessage Scenario.write_config
    (WriteTest.init Scenario.write_config WriteTest.new_results 100)
    Scenario.write_events = Some Scenario.write_final /\
  WriteTest.result_of Scenario.write_final
  = Some (WriteTest.this_results Scenario.write_final) /\
  WriteTest.run Scenario.generateMessage Scenario.write_config
    (WriteTest.init Scenario.write_config
                    (WriteTest.this_results Scenario.write_final) 200)
    Scenario.rerun_events = Some Scenario.rerun_final /\
  ReadTest.run Scenario.getRandomUserId Scenario.read_config
    (ReadTest.init Scenario.read_config ReadTest.new_results 0)
    Scenario.read_events = Some Scenario.read_final /\
  ReadTest.result_of Scenario.read_final
  = Some (ReadTest.this_results Scenario.read_final) /\
  ReadTest.run Scenario.getRandomUserId Scenario.read_config
    (ReadTest.init Scenario.read_config
                   (ReadTest.this_results Scenario.read_final) 2000)
    Scenario.reread_events = Some Scenario.reread_final /\
  WriteTest.totalRecords (WriteTest.this_results Scenario.rerun_final)
  = WriteTest.totalRecords (WriteTest.this_results Scenario.write_final)
    + sum_Z (map WriteTest.recordCount
                 (filter WriteTest.success (WriteTest.results Scenario.rerun_final))) /\
  ReadTest.totalRecordsRead (ReadTest.this_results Scenario.reread_final)
  = ReadTest.totalRecordsRead (ReadTest.this_results Scenario.read_final)
    + sum_Z (map ReadTest.recordCount
                 (filter ReadTest.success (ReadTest.results Scenario.reread_final))).
Proof.
  assert (H1 : WriteTest.run Scenario.generateMessage Scenario.write_config
                 (WriteTest.init Scenario.write_config WriteTest.new_results 100)
                 Scenario.write_events = Some Scenario.write_final) by reflexivity.
  assert (H2 : WriteTest.result_of Scenario.write_final
               = Some (WriteTest.this_results Scenario.write_final)) by reflexivity.
  assert (H3 : WriteTest.run Scenario.generateMessage Scenario.write_config
                 (WriteTest.init Scenario.write_config
                                 (WriteTest.this_results Scenario.write_final) 200)
                 Scenario.rerun_events = Some Scenario.rerun_final) by reflexivity.
  assert (H4 : ReadTest.run Scenario.getRandomUserId Scenario.read_config
                 (ReadTest.init Scenario.read_config ReadTest.new_results 0)
                 Scenario.read_events = Some Scenario.read_final) by reflexivity.
  assert (H5 : ReadTest.result_of Scenario.read_final
               = Some (ReadTest.this_results Scenario.read_final)) by reflexivity.
  assert (H6 : ReadTest.run Scenario.getRandomUserId Scenario.read_config
                 (ReadTest.init Scenario.read_config
                                (ReadTest.this_results Scenario.read_final) 2000)
                 Scenario.reread_events = Some Scenario.reread_final) by reflexivity.
  repeat (split; [assumption|]).
  destruct (C10_results_accumulate_across_runs unit Scenario.generateMessage
              Scenario.getRandomUserId Scenario.write_config Scenario.read_config
              100 200 0 2000 _ _ _ _ _ _ _ _ _ _ H1 H2 H3 H4 H5 H6)
    as [(_ & Hw & _) (_ & Hr & _)].
  split; assumption.
Defined.

(** What the carried-over error count does to a second run: the completion
    test adds the first run's error to the second run's counts, so the
    promise is fulfilled after two of the three batches and batch 2 is never
    attempted, while the record total and the rate include the first run's
    three records. *)
Remark rerun_resolves_early :
  WriteTest.run Scenario.generateMessage Scenario.write_config
    (WriteTest.init Scenario.write_config
                    (WriteTest.this_results Scenario.write_final) 200)
    Scenario.rerun_events = Some Scenario.rerun_final /\
  WriteTest.result_of Scenario.rerun_final
  = Some (WriteTest.this_results Scenario.rerun_final) /\
  Lanes.attempted (WriteTest.lanes_state Scenario.rerun_final) = [1; 0] /\
  WriteTest.immediates Scenario.rerun_final = [] /\
  WriteTest.inflight Scenario.rerun_final = [] /\
  WriteTest.totalRecords (WriteTest.this_results Scenario.rerun_final) = 5 /\
  WriteTest.errors (WriteTest.this_results Scenario.rerun_final) = 2 /\
  WriteTest.totalTime (WriteTest.this_results Scenario.rerun_final) = 40 /\
  WriteTest.tps (WriteTest.this_results Scenario.rerun_final) = JsNum.of_Z 125.
Proof. repeat split; reflexivity. Qed.
